(** * Investor-state energy framework: LROMA and FMIP calculators

    A shallow embedding of [src/src/lroma_calculator.py] and
    [src/src/fmip_model.py], and the properties of their present-value
    and ratio computations.

    Numbers.  A Python [int] is a [Z]; a Python [float] is modelled by the
    exact rational it denotes ([Q]), so rounding, overflow and the
    non-finite floats are outside the model.  The one non-finite float the
    code builds itself, [float('inf')], has a constructor of its own in the
    type of the FMIP ratio.  Equality of numbers is Python's [==], that is
    [Qeq] on values. *)

From Stdlib Require Import ZArith QArith Qpower Qfield List String Ascii Bool Lia Lqa.
Import ListNotations.

Local Open Scope Q_scope.

(** ** Exceptions and the error monad *)

(** The exceptions the modelled code can raise.  [KeyError] carries its
    argument: the missing key for a failed subscript, the whole message
    where the code raises it with an f-string. *)
Inductive exn : Type :=
| KeyError (arg : string)
| TypeError
| ZeroDivisionError.

Inductive result (A : Type) : Type :=
| Ok (a : A)
| Err (e : exn).
Arguments Ok {A} a.
Arguments Err {A} e.

Definition bind {A B} (c : result A) (k : A -> result B) : result B :=
  match c with
  | Ok a => k a
  | Err e => Err e
  end.

Notation "x <- c ;; k" := (bind c (fun x => k))
  (at level 61, c at next level, right associativity).

(** ** Python scalars *)

(** The scalars a parameter mapping or a cash-flow list may hold: an int, a
    float, or [None] standing for a value that is not a number. *)
Inductive atom : Type :=
| AInt (z : Z)
| AFloat (q : Q)
| ANone.

Definition Qof (a : atom) : Q :=
  match a with
  | AInt z => inject_Z z
  | AFloat q => q
  | ANone => 0
  end.

Definition numeric (a : atom) : bool :=
  match a with
  | ANone => false
  | _ => true
  end.

(** [a + b], [a - b], [a * b]: int with int stays an int, a float on either
    side gives a float, [None] raises [TypeError]. *)
Definition arith2 (fz : Z -> Z -> Z) (fq : Q -> Q -> Q) (a b : atom) : result atom :=
  match a, b with
  | AInt x, AInt y => Ok (AInt (fz x y))
  | ANone, _ | _, ANone => Err TypeError
  | _, _ => Ok (AFloat (fq (Qof a) (Qof b)))
  end.

Definition py_add : atom -> atom -> result atom := arith2 Z.add Qplus.
Definition py_sub : atom -> atom -> result atom := arith2 Z.sub Qminus.
Definition py_mul : atom -> atom -> result atom := arith2 Z.mul Qmult.

(** Unary minus. *)
Definition py_neg (a : atom) : result atom :=
  match a with
  | AInt x => Ok (AInt (- x))
  | AFloat q => Ok (AFloat (- q))
  | ANone => Err TypeError
  end.

(** [a / b]: true division, always a float; the operand types are checked
    before the divisor. *)
Definition py_truediv (a b : atom) : result atom :=
  match a, b with
  | ANone, _ | _, ANone => Err TypeError
  | _, _ => if Qeq_bool (Qof b) 0 then Err ZeroDivisionError
            else Ok (AFloat (Qof a / Qof b))
  end.

(** [a ** t] for an exponent [t] produced by [enumerate] or [range], hence a
    non-negative int. *)
Definition py_pow (a : atom) (t : Z) : result atom :=
  match a with
  | AInt x => Ok (AInt (x ^ t))
  | AFloat q => Ok (AFloat (q ^ t))
  | ANone => Err TypeError
  end.

(** [a != 0] and [a > 0] on a number. *)
Definition py_ne0 (a : atom) : bool := negb (Qeq_bool (Qof a) 0).
Definition py_eq0 (a : atom) : bool := Qeq_bool (Qof a) 0.
Definition py_gt0 (a : atom) : bool :=
  match Qof a ?= 0 with
  | Gt => true
  | _ => false
  end.

(** [sum(term(x) for x in xs)]: the generator is consumed from the left,
    each term is added to the running total, which starts at the int 0; the
    first exception ends the sum. *)
Fixpoint sum_from {X} (term : X -> result atom) (xs : list X) (acc : atom) : result atom :=
  match xs with
  | [] => Ok acc
  | x :: xs' =>
      v <- term x ;;
      acc' <- py_add acc v ;;
      sum_from term xs' acc'
  end.

Definition py_sum {X} (term : X -> result atom) (xs : list X) : result atom :=
  sum_from term xs (AInt 0).

(** [enumerate(xs, start)] and [range(lo, hi)]. *)
Fixpoint enumerate {X} (start : Z) (xs : list X) : list (Z * X) :=
  match xs with
  | [] => []
  | x :: xs' => (start, x) :: enumerate (start + 1)%Z xs'
  end.

Definition range (lo hi : Z) : list Z :=
  map (fun i => (lo + Z.of_nat i)%Z) (seq 0 (Z.to_nat (hi - lo))).

(** ** Dictionaries *)

(** A Python dict with string keys, in insertion order. *)
Definition dict (V : Type) : Type := list (string * V).

Fixpoint lookup {V} (k : string) (d : dict V) : option V :=
  match d with
  | [] => None
  | (k', v) :: d' => if String.eqb k' k then Some v else lookup k d'
  end.

(** [d[k]]. *)
Definition getitem {V} (d : dict V) (k : string) : result V :=
  match lookup k d with
  | Some v => Ok v
  | None => Err (KeyError k)
  end.

(** [d[k] = v]: an existing key keeps its place, a new one goes last. *)
Fixpoint setitem {V} (d : dict V) (k : string) (v : V) : dict V :=
  match d with
  | [] => [(k, v)]
  | (k', v') :: d' =>
      if String.eqb k' k then (k', v) :: d' else (k', v') :: setitem d' k v
  end.

Definition keys {V} (d : dict V) : list string := map fst d.

(** [k in d]. *)
Definition contains {V} (k : string) (d : dict V) : bool :=
  match lookup k d with
  | Some _ => true
  | None => false
  end.

(** ** Mutable objects: state and exceptions *)

(** A computation over a store [S] that may raise: the store is returned
    in either case, as an exception leaves the objects allocated and
    written so far in place. *)
Definition M (S A : Type) : Type := S -> S * result A.

Definition ret {S A} (a : A) : M S A := fun s => (s, Ok a).

Definition lift {S A} (r : result A) : M S A := fun s => (s, r).

Definition mbind {S A B} (c : M S A) (k : A -> M S B) : M S B :=
  fun s =>
    match c s with
    | (s', Ok a) => k a s'
    | (s', Err e) => (s', Err e)
    end.

Notation "x <~ c ;; k" := (mbind c (fun x => k))
  (at level 61, c at next level, right associativity).

(** [try: body except <catches> as e: handler(e)]. *)
Definition try_except {S A} (body : M S A) (catches : exn -> bool)
    (handler : exn -> M S A) : M S A :=
  fun s =>
    match body s with
    | (s', Err e) => if catches e then handler e s' else (s', Err e)
    | (s', Ok a) => (s', Ok a)
    end.

(** A [for] loop that carries the value of a local variable. *)
Fixpoint for_each {S X B} (xs : list X) (body : B -> X -> M S B) (acc : B) : M S B :=
  match xs with
  | [] => ret acc
  | x :: xs' => acc' <~ body acc x ;; for_each xs' body acc'
  end.

(** Objects live in a list; a reference is an index into it.  Allocation
    appends.  A reference outside the list, which no Python program can
    hold, reads as the default object and is not written. *)
Definition loc : Type := nat.

Definition read_obj {O} (default : O) (objs : list O) (l : loc) : O :=
  nth l objs default.

Fixpoint write_obj {O} (objs : list O) (l : loc) (o : O) : list O :=
  match objs, l with
  | [], _ => []
  | _ :: objs', O => o :: objs'
  | o' :: objs', S l' => o' :: write_obj objs' l' o
  end.

(** The present-value term [x / (1 + discount_rate) ** t]. *)
Definition discounted (x discount_rate : atom) (t : Z) : result atom :=
  base <- py_add (AInt 1) discount_rate ;;
  factor <- py_pow base t ;;
  py_truediv x factor.

(** [[x] * n]: the repeat count must be an int; a count below one gives the
    empty list. *)
Definition py_list_repeat (x : atom) (n : atom) : result (list atom) :=
  match n with
  | AInt k => Ok (repeat x (Z.to_nat k))
  | _ => Err TypeError
  end.

(** [range(lo, hi)] on Python values: both bounds must be ints. *)
Definition py_range (lo hi : atom) : result (list Z) :=
  match lo, hi with
  | AInt a, AInt b => Ok (range a b)
  | _, _ => Err TypeError
  end.

(** [a < b] on Python values: numbers compare by value, [None] is not
    ordered. *)
Definition py_lt (a b : atom) : result bool :=
  match a, b with
  | ANone, _ | _, ANone => Err TypeError
  | _, _ => Ok (match Qof a ?= Qof b with Lt => true | _ => false end)
  end.

(** ** [lroma_calculator.py] *)

Module LROMACalculator.

(** [calculate_npv]: flows are indexed from 1. *)
Definition calculate_npv (cash_flows : list atom) (discount_rate : atom) : result atom :=
  py_sum (fun '(t, cf) => discounted cf discount_rate t) (enumerate 1 cash_flows).

(** The summation written inline in [calculate_lroma]: flows are indexed
    from 0. *)
Definition inline_npv (cash_flows : list atom) (discount_rate : atom) : result atom :=
  py_sum (fun '(t, cf) => discounted cf discount_rate t) (enumerate 0 cash_flows).

Definition calculate_lroma (vehicle_params : dict atom) : result atom :=
  capex <- getitem vehicle_params "capex" ;;
  annual_distance <- getitem vehicle_params "annual_distance" ;;
  tco_per_km <- getitem vehicle_params "tco_per_km" ;;
  freight_rate <- getitem vehicle_params "freight_rate" ;;
  discount_rate <- getitem vehicle_params "discount_rate" ;;
  vehicle_life <- getitem vehicle_params "vehicle_life" ;;
  margin <- py_sub freight_rate tco_per_km ;;
  annual_profit <- py_mul annual_distance margin ;;
  outlay <- py_neg capex ;;
  profits <- py_list_repeat annual_profit vehicle_life ;;
  let cash_flows := outlay :: profits in
  npv <- inline_npv cash_flows discount_rate ;;
  stop <- py_add vehicle_life (AInt 1) ;;
  years <- py_range (AInt 1) stop ;;
  pv_distance <- py_sum (fun t => discounted annual_distance discount_rate t) years ;;
  if py_ne0 pv_distance then py_truediv npv pv_distance else Ok (AInt 0).

(** One row of the table built by [sensitivity_analysis]. *)
Record row : Type := {
  parameter : string;
  value : atom;
  lroma : atom
}.

(** The interpreter state the sweep acts on: the parameter dicts, and the
    warnings printed so far, each kept as the three values interpolated in
    its message. *)
Record world : Type := {
  dicts : list (dict atom);
  stdout : list (string * atom * exn)
}.

(** [d.copy()]: a new dict object with the entries of [d]. *)
Definition dict_copy (d : loc) : M world loc :=
  fun w =>
    ({| dicts := (dicts w ++ [read_obj [] (dicts w) d])%list; stdout := stdout w |},
     Ok (List.length (dicts w))).

(** [d[k] = v] on the dict object [d]. *)
Definition dict_setitem (d : loc) (k : string) (v : atom) : M world unit :=
  fun w =>
    ({| dicts := write_obj (dicts w) d (setitem (read_obj [] (dicts w) d) k v);
        stdout := stdout w |},
     Ok tt).

Definition print (line : string * atom * exn) : M world unit :=
  fun w => ({| dicts := dicts w; stdout := (stdout w ++ [line])%list |}, Ok tt).

(** [self.calculate_lroma(d)] on the dict object [d]. *)
Definition calculate_lroma_at (d : loc) : M world atom :=
  fun w => (w, calculate_lroma (read_obj [] (dicts w) d)).

(** [except (KeyError, ZeroDivisionError)]. *)
Definition catches (e : exn) : bool :=
  match e with
  | KeyError _ | ZeroDivisionError => true
  | TypeError => false
  end.

(** The body of the inner loop: one override of one parameter. *)
Definition sweep_step (base_params : loc) (param_name : string)
    (results : list row) (value : atom) : M world (list row) :=
  modified_params <~ dict_copy base_params ;;
  _ <~ dict_setitem modified_params param_name value ;;
  try_except
    (lroma <~ calculate_lroma_at modified_params ;;
     ret (results ++ [{| parameter := param_name;
                         value := value;
                         lroma := lroma |}])%list)
    catches
    (fun e => _ <~ print (param_name, value, e) ;; ret results).

Definition sensitivity_analysis (base_params : loc)
    (parameter_ranges : dict (list atom)) : M world (list row) :=
  for_each parameter_ranges
    (fun results '(param_name, values) =>
       for_each values (sweep_step base_params param_name) results)
    [].

(** [calculate_breakeven]: the mapping starts empty and receives a
    ["freight_rate"] entry when the current LROMA is below the target. *)
Definition calculate_breakeven (vehicle_params : dict atom) (target_lroma : atom)
    : result (dict atom) :=
  base_lroma <- calculate_lroma vehicle_params ;;
  let breakeven_points : dict atom := [] in
  below <- py_lt base_lroma target_lroma ;;
  if below then
    current_freight <- getitem vehicle_params "freight_rate" ;;
    gap <- py_sub target_lroma base_lroma ;;
    required_increase <- py_mul gap (AInt 2) ;;
    breakeven <- py_add current_freight required_increase ;;
    Ok (setitem breakeven_points "freight_rate" breakeven)
  else Ok breakeven_points.

(** The default of [target_lroma]. *)
Definition default_target : atom := AInt 0.

End LROMACalculator.

(** ** [fmip_model.py] *)

(** [repr] of a string, for the characters of ASCII: single quotes unless
    the string holds a single quote and no double quote; the backslash, the
    chosen quote and the control characters are escaped.  Bytes above 127
    are kept, as for the printable characters they encode. *)
Definition hex_digit (n : nat) : ascii :=
  nth n (list_ascii_of_string "0123456789abcdef") "0"%char.

Definition repr_char (quote : ascii) (c : ascii) : string :=
  let n := nat_of_ascii c in
  if Ascii.eqb c "\"%char then "\\"
  else if Ascii.eqb c quote then String "\"%char (String c EmptyString)
  else if Nat.eqb n 9 then "\t"
  else if Nat.eqb n 10 then "\n"
  else if Nat.eqb n 13 then "\r"
  else if (Nat.ltb n 32 || Nat.eqb n 127)%bool then
    String "\"%char (String "x"%char
      (String (hex_digit (Nat.div n 16)) (String (hex_digit (Nat.modulo n 16)) EmptyString)))
  else String c EmptyString.

Definition double_quote : ascii := ascii_of_nat 34.

Definition has_char (c : ascii) (s : string) : bool :=
  existsb (Ascii.eqb c) (list_ascii_of_string s).

Definition py_repr (s : string) : string :=
  let quote :=
    if (has_char "'"%char s && negb (has_char double_quote s))%bool
    then double_quote else "'"%char in
  String quote
    (String.concat "" (map (repr_char quote) (list_ascii_of_string s))
     ++ String quote EmptyString).

(** [repr] of a list of strings, as [list(d.keys())] prints in an f-string. *)
Definition repr_list (ks : list string) : string :=
  "[" ++ String.concat ", " (map py_repr ks) ++ "]".

(** [s.endswith(suffix)]. *)
Definition endswith (s suffix : string) : bool :=
  (Nat.leb (String.length suffix) (String.length s)
   && String.eqb
        (substring (String.length s - String.length suffix) (String.length suffix) s)
        suffix)%bool.

Module FMIPCalculator.

(** What a scenario dict holds under a key: a scalar, or a reference to a
    list object (a cash-flow series). *)
Inductive val : Type :=
| VAtom (a : atom)
| VList (l : loc).

(** The value of the FMIP ratio: a number, or [float('inf')]. *)
Inductive ratio : Type :=
| Finite (a : atom)
| Infinity.

Record fmip_result : Type := {
  fmip : ratio;
  pv_public_investment : atom;
  pv_tax_revenues : atom;
  pv_fiscal_avoidance : atom;
  total_fiscal_return : atom;
  scenario : string
}.

(** The interpreter state: the scenario dicts, the list objects, and the
    warnings printed so far. *)
Record store : Type := {
  dicts : list (dict val);
  lists : list (list atom);
  stdout : list (string * atom * exn)
}.

(** Truth value of an object, as tested by [not cash_flows]. *)
Definition truthy (lists : list (list atom)) (v : val) : bool :=
  match v with
  | VAtom a => (numeric a && negb (Qeq_bool (Qof a) 0))%bool
  | VList l => match read_obj [] lists l with [] => false | _ :: _ => true end
  end.

(** Iterating an object: only a list can be iterated. *)
Definition iterate (lists : list (list atom)) (v : val) : result (list atom) :=
  match v with
  | VAtom _ => Err TypeError
  | VList l => Ok (read_obj [] lists l)
  end.

(** An object used as an operand of arithmetic: a list is not a number. *)
Definition scalar (v : val) : result atom :=
  match v with
  | VAtom a => Ok a
  | VList _ => Err TypeError
  end.

(** [calculate_present_value]: flows are indexed from 1. *)
Definition calculate_present_value (lists : list (list atom))
    (cash_flows discount_rate : val) : result atom :=
  if negb (truthy lists cash_flows) then Ok (AFloat 0)
  else
    flows <- iterate lists cash_flows ;;
    py_sum (fun '(t, cf) => r <- scalar discount_rate ;; discounted cf r t)
           (enumerate 1 flows).

Definition not_found_message (scenario : string) (available : list string) : string :=
  "Scenario '" ++ scenario ++ "' not found in parameters. Available: "
  ++ repr_list available.

(** The message for a missing field; [{e}] prints a [KeyError] as the repr
    of the missing key. *)
Definition missing_message (scenario key : string) : string :=
  "Missing required parameter in scenario '" ++ scenario ++ "': "
  ++ py_repr key.

(** [try: body except KeyError as e: raise KeyError(message(e))]. *)
Definition reraise_key_error {A} (body : result A) (message : string -> string) : result A :=
  match body with
  | Err (KeyError key) => Err (KeyError (message key))
  | r => r
  end.

Definition calculate_fmip (st : store) (parameters : dict loc) (scenario : string)
    : result fmip_result :=
  if negb (contains scenario parameters)
  then Err (KeyError (not_found_message scenario (keys parameters)))
  else
    ref <- getitem parameters scenario ;;
    let scenario_params := read_obj [] (dicts st) ref in
    pvs <- reraise_key_error
      (cf1 <- getitem scenario_params "public_investment_cashflows" ;;
       r1 <- getitem scenario_params "social_discount_rate" ;;
       pv_public_investment <- calculate_present_value (lists st) cf1 r1 ;;
       cf2 <- getitem scenario_params "tax_revenue_cashflows" ;;
       r2 <- getitem scenario_params "social_discount_rate" ;;
       pv_tax_revenues <- calculate_present_value (lists st) cf2 r2 ;;
       cf3 <- getitem scenario_params "fiscal_avoidance_cashflows" ;;
       r3 <- getitem scenario_params "social_discount_rate" ;;
       pv_fiscal_avoidance <- calculate_present_value (lists st) cf3 r3 ;;
       Ok (pv_public_investment, pv_tax_revenues, pv_fiscal_avoidance))
      (missing_message scenario) ;;
    let '(pv_public_investment, pv_tax_revenues, pv_fiscal_avoidance) := pvs in
    fmip <- (if py_eq0 pv_public_investment then
               total <- py_add pv_tax_revenues pv_fiscal_avoidance ;;
               Ok (if py_gt0 total then Infinity else Finite (AFloat 0))
             else
               total <- py_add pv_tax_revenues pv_fiscal_avoidance ;;
               q <- py_truediv total pv_public_investment ;;
               Ok (Finite q)) ;;
    total <- py_add pv_tax_revenues pv_fiscal_avoidance ;;
    Ok {| fmip := fmip;
          pv_public_investment := pv_public_investment;
          pv_tax_revenues := pv_tax_revenues;
          pv_fiscal_avoidance := pv_fiscal_avoidance;
          total_fiscal_return := total;
          scenario := scenario |}.

(** One row of the table built by [sensitivity_analysis]. *)
Record row : Type := {
  row_parameter : string;
  row_value : atom;
  row_fmip : ratio;
  row_scenario : string
}.

(** [d.copy()]: a new dict object with the entries of [d]; the values, and
    so the list objects they refer to, are shared with [d]. *)
Definition dict_copy (d : loc) : M store loc :=
  fun st =>
    ({| dicts := (dicts st ++ [read_obj [] (dicts st) d])%list;
        lists := lists st;
        stdout := stdout st |},
     Ok (List.length (dicts st))).

(** [d[k]] and [d[k] = v] on the dict object [d]. *)
Definition dict_getitem (d : loc) (k : string) : M store val :=
  fun st => (st, getitem (read_obj [] (dicts st) d) k).

Definition dict_setitem (d : loc) (k : string) (v : val) : M store unit :=
  fun st =>
    ({| dicts := write_obj (dicts st) d (setitem (read_obj [] (dicts st) d) k v);
        lists := lists st;
        stdout := stdout st |},
     Ok tt).

(** A new list object. *)
Definition list_new (xs : list atom) : M store loc :=
  fun st =>
    ({| dicts := dicts st;
        lists := (lists st ++ [xs])%list;
        stdout := stdout st |},
     Ok (List.length (lists st))).

Definition iterate_at (v : val) : M store (list atom) :=
  fun st => (st, iterate (lists st) v).

Definition print (line : string * atom * exn) : M store unit :=
  fun st =>
    ({| dicts := dicts st; lists := lists st;
        stdout := (stdout st ++ [line])%list |},
     Ok tt).

(** [[x * value for x in xs]]: the products, in order, up to the first
    exception. *)
Fixpoint scale (xs : list atom) (value : atom) : result (list atom) :=
  match xs with
  | [] => Ok []
  | x :: xs' =>
      y <- py_mul x value ;;
      ys <- scale xs' value ;;
      Ok (y :: ys)
  end.

(** [FMIPCalculator(parameters).calculate_fmip(scenario)] in the current
    state. *)
Definition calculate_fmip_at (parameters : dict loc) (scenario : string)
    : M store fmip_result :=
  fun st => (st, calculate_fmip st parameters scenario).

Section Sweep.

(** How an f-string prints a scalar; the model of numbers does not fix the
    digits of a float, so the rendering is a parameter. *)
Variable fmt : atom -> string.

Definition temp_key (param_name : string) (value : atom) : string :=
  "temp_" ++ param_name ++ "_" ++ fmt value.

(** The body of the [try] block for one sweep point. *)
Definition sweep_point (base_params : loc) (base_scenario param_name : string)
    (value : atom) : M store row :=
  modified_params <~ dict_copy base_params ;;
  _ <~ (if endswith param_name "_cashflows" then
          old <~ dict_getitem modified_params param_name ;;
          xs <~ iterate_at old ;;
          ys <~ lift (scale xs value) ;;
          scaled <~ list_new ys ;;
          dict_setitem modified_params param_name (VList scaled)
        else
          dict_setitem modified_params param_name (VAtom value)) ;;
  fmip_result <~ calculate_fmip_at
                   [(temp_key param_name value, modified_params)]
                   (temp_key param_name value) ;;
  ret {| row_parameter := param_name;
         row_value := value;
         row_fmip := fmip fmip_result;
         row_scenario := base_scenario |}.

(** The body of the inner loop: the [try] block and its handler, which
    catches every exception. *)
Definition sweep_step (base_params : loc) (base_scenario param_name : string)
    (results : list row) (value : atom) : M store (list row) :=
  try_except
    (r <~ sweep_point base_params base_scenario param_name value ;;
     ret (results ++ [r])%list)
    (fun _ => true)
    (fun e => _ <~ print (param_name, value, e) ;; ret results).

Definition sensitivity_analysis (parameters : dict loc) (base_scenario : string)
    (parameter_variations : dict (list atom)) : M store (list row) :=
  base_params <~ lift (getitem parameters base_scenario) ;;
  for_each parameter_variations
    (fun results '(param_name, values) =>
       for_each values (sweep_step base_params base_scenario param_name) results)
    [].

End Sweep.

(** One row of the table built by [scenario_comparison]. *)
Record comparison_row : Type := {
  cmp_scenario : string;
  cmp_fmip : ratio;
  cmp_public_investment : atom;
  cmp_tax_revenues : atom;
  cmp_fiscal_avoidance : atom;
  cmp_total_fiscal_return : atom
}.

(** The default of [scenarios]. *)
Definition default_scenarios : list string :=
  ["base_case"; "pessimistic"; "optimistic"; "ssb_disruption"]%string.

(** [except (KeyError, ValueError)]; nothing in [calculate_fmip] raises a
    [ValueError]. *)
Definition comparison_catches (e : exn) : bool :=
  match e with
  | KeyError _ => true
  | TypeError | ZeroDivisionError => false
  end.

(** [scenario_comparison] reads the state [st] and writes no object; its
    own state is the list of warnings it prints, each kept as the scenario
    name and the exception interpolated in the message. *)
Definition scenario_comparison (st : store) (parameters : dict loc)
    (scenarios : option (list string))
    : M (list (string * exn)) (list comparison_row) :=
  let scenarios :=
    match scenarios with
    | None => default_scenarios
    | Some names => names
    end in
  for_each scenarios
    (fun results scenario =>
       try_except
         (fmip_result <~ lift (calculate_fmip st parameters scenario) ;;
          ret (results ++ [{| cmp_scenario := scenario;
                              cmp_fmip := fmip fmip_result;
                              cmp_public_investment := pv_public_investment fmip_result;
                              cmp_tax_revenues := pv_tax_revenues fmip_result;
                              cmp_fiscal_avoidance := pv_fiscal_avoidance fmip_result;
                              cmp_total_fiscal_return := total_fiscal_return fmip_result
                           |}])%list)
         comparison_catches
         (fun e => fun out => ((out ++ [(scenario, e)])%list, Ok results)))
    [].

End FMIPCalculator.

(** ** The formulas of the specification *)

(** [Sigma lo hi f] is the sum of [f t] for [t = lo .. hi], empty when
    [hi < lo]. *)
Fixpoint Sigma_from (lo : Z) (n : nat) (f : Z -> Q) : Q :=
  match n with
  | O => 0
  | S k => f lo + Sigma_from (lo + 1)%Z k f
  end.

Definition Sigma (lo hi : Z) (f : Z -> Q) : Q :=
  Sigma_from lo (Z.to_nat (hi + 1 - lo)) f.

(** The [t]-th flow of a series whose first flow is numbered [first]. *)
Definition flow (first : Z) (cash_flows : list atom) (t : Z) : Q :=
  Qof (nth (Z.to_nat (t - first)) cash_flows ANone).

(** Present value of a series with flows numbered [1 .. N]. *)
Definition spec_present_value (cash_flows : list atom) (r : Q) : Q :=
  Sigma 1 (Z.of_nat (List.length cash_flows))
    (fun t => flow 1 cash_flows t / (1 + r) ^ t).

(** The LROMA cash flow of year [t]: the outlay in year 0, the annual
    profit in the years after. *)
Definition spec_cf (capex annual_distance tco_per_km freight_rate : Q) (t : Z) : Q :=
  if (t =? 0)%Z then - capex
  else annual_distance * (freight_rate - tco_per_km).

Definition spec_npv (capex annual_distance tco_per_km freight_rate r : Q)
    (vehicle_life : Z) : Q :=
  Sigma 0 vehicle_life
    (fun t => spec_cf capex annual_distance tco_per_km freight_rate t / (1 + r) ^ t).

Definition spec_pv_distance (annual_distance r : Q) (vehicle_life : Z) : Q :=
  Sigma 1 vehicle_life (fun t => annual_distance / (1 + r) ^ t).

(** The plain sum of a series, [sum(cash_flows)]. *)
Definition plain_sum (cash_flows : list atom) : Q :=
  fold_left Qplus (map Qof cash_flows) 0.

(** [s] occurs in [t]. *)
Definition occurs_in (s t : string) : Prop :=
  exists a b, t = (a ++ s ++ b)%string.

(** [vehicle_params] is a vehicle-parameter mapping: it holds the six
    required keys, five numbers and an int number of years. *)
Definition vehicle_parameters (vehicle_params : dict atom)
    (capex annual_distance tco_per_km freight_rate discount_rate : atom)
    (vehicle_life : Z) : Prop :=
  getitem vehicle_params "capex" = Ok capex
  /\ getitem vehicle_params "annual_distance" = Ok annual_distance
  /\ getitem vehicle_params "tco_per_km" = Ok tco_per_km
  /\ getitem vehicle_params "freight_rate" = Ok freight_rate
  /\ getitem vehicle_params "discount_rate" = Ok discount_rate
  /\ getitem vehicle_params "vehicle_life" = Ok (AInt vehicle_life)
  /\ numeric capex = true /\ numeric annual_distance = true
  /\ numeric tco_per_km = true /\ numeric freight_rate = true
  /\ numeric discount_rate = true.

(** The reference run of [run_analysis.py]. *)
Definition fcev : dict atom :=
  [("capex", AInt 4800000); ("annual_distance", AInt 100000);
   ("tco_per_km", AFloat (1320 # 100)); ("freight_rate", AFloat (2500 # 100));
   ("discount_rate", AFloat (8 # 100)); ("vehicle_life", AInt 8)]%string.

(** The sum of a list of numbers, from the right. *)
Definition total (l : list Q) : Q := fold_right Qplus 0 l.

(** ** The sweeps, point by point *)

(** The rows of the LROMA sweep over [parameter_ranges], each override
    computed on its own from the entries [base] of the base mapping; an
    override whose computation raises contributes no row. *)
Definition lroma_rows (base : dict atom) (parameter_ranges : dict (list atom))
    : list LROMACalculator.row :=
  flat_map
    (fun '(param_name, values) =>
       flat_map
         (fun value =>
            match LROMACalculator.calculate_lroma (setitem base param_name value) with
            | Ok x => [{| LROMACalculator.parameter := param_name;
                          LROMACalculator.value := value;
                          LROMACalculator.lroma := x |}]
            | Err _ => []
            end)
         values)
    parameter_ranges.

(** Every override that fails in the LROMA sweep fails with an exception
    the sweep catches. *)
Definition only_caught (base : dict atom) (parameter_ranges : dict (list atom)) : bool :=
  forallb
    (fun '(param_name, values) =>
       forallb
         (fun value =>
            match LROMACalculator.calculate_lroma (setitem base param_name value) with
            | Ok _ => true
            | Err e => LROMACalculator.catches e
            end)
         values)
    parameter_ranges.

(** The rows of the FMIP sweep, each sweep point run on its own in the
    state [st] the sweep starts from; a point that raises contributes no
    row. *)
Definition fmip_rows (fmt : atom -> string) (st : FMIPCalculator.store)
    (base_params : loc) (base_scenario : string)
    (parameter_variations : dict (list atom)) : list FMIPCalculator.row :=
  flat_map
    (fun '(param_name, values) =>
       flat_map
         (fun value =>
            match snd (FMIPCalculator.sweep_point fmt base_params base_scenario
                         param_name value st) with
            | Ok r => [r]
            | Err _ => []
            end)
         values)
    parameter_variations.

(** The scenario dict [base_params] exists in [st] and the lists it refers
    to exist. *)
Definition valid_scenario (st : FMIPCalculator.store) (base_params : loc) : bool :=
  (Nat.ltb base_params (List.length (FMIPCalculator.dicts st))
   && forallb
        (fun '(_, v) =>
           match v with
           | FMIPCalculator.VAtom _ => true
           | FMIPCalculator.VList l => Nat.ltb l (List.length (FMIPCalculator.lists st))
           end)
        (read_obj [] (FMIPCalculator.dicts st) base_params))%bool.

(** What a value denotes in a heap of lists. *)
Inductive denotation : Type :=
| DAtom (a : atom)
| DList (xs : list atom).

Definition resolve (lists : list (list atom)) (v : FMIPCalculator.val) : denotation :=
  match v with
  | FMIPCalculator.VAtom a => DAtom a
  | FMIPCalculator.VList l => DList (read_obj [] lists l)
  end.

(** Two scenario dicts, each in its heap, that denote the same mapping. *)
Definition same_scenario (lists : list (list atom)) (d : dict FMIPCalculator.val)
    (lists' : list (list atom)) (d' : dict FMIPCalculator.val) : Prop :=
  forall k, option_map (resolve lists) (lookup k d)
            = option_map (resolve lists') (lookup k d').

(** [st'] holds every object of [st], unchanged, and possibly more. *)
Definition extends (st st' : FMIPCalculator.store) : Prop :=
  (exists ext, FMIPCalculator.dicts st' = FMIPCalculator.dicts st ++ ext)%list
  /\ (exists ext, FMIPCalculator.lists st' = FMIPCalculator.lists st ++ ext)%list.

(** The first half of a sweep point, on the entries [d] of the base
    scenario: the scaled series when the parameter is a cash-flow series,
    nothing when it is a scalar. *)
Definition scaled_series (lists : list (list atom)) (d : dict FMIPCalculator.val)
    (param_name : string) (value : atom) : result (option (list atom)) :=
  if endswith param_name "_cashflows" then
    old <- getitem d param_name ;;
    xs <- FMIPCalculator.iterate lists old ;;
    ys <- FMIPCalculator.scale xs value ;;
    Ok (Some ys)
  else Ok None.

(** ** Example inputs *)

(** The reference run with a freight rate of 13.30 per km, just above the
    cost of 13.20. *)
Definition thin_margin : dict atom :=
  [("capex", AInt 4800000); ("annual_distance", AInt 100000);
   ("tco_per_km", AFloat (1320 # 100)); ("freight_rate", AFloat (1330 # 100));
   ("discount_rate", AFloat (8 # 100)); ("vehicle_life", AInt 8)]%string.

(** A scenario with no public investment and positive fiscal returns. *)
Definition zero_investment : FMIPCalculator.store :=
  {| FMIPCalculator.dicts :=
       [[("public_investment_cashflows", FMIPCalculator.VList 0%nat);
         ("tax_revenue_cashflows", FMIPCalculator.VList 1%nat);
         ("fiscal_avoidance_cashflows", FMIPCalculator.VList 2%nat);
         ("social_discount_rate", FMIPCalculator.VAtom (AFloat (5 # 100)))]%string];
     FMIPCalculator.lists := [[]; [AInt 105]; [AInt 210]];
     FMIPCalculator.stdout := [] |}.

(** The reference run as the one object of an LROMA state. *)
Definition fcev_world : LROMACalculator.world :=
  {| LROMACalculator.dicts := [fcev]; LROMACalculator.stdout := [] |}.

(** Three overrides of the discount rate, the second of which makes the
    division fail. *)
Definition rate_sweep : dict (list atom) :=
  [("discount_rate"%string, [AFloat (5 # 100); AInt (-1); AFloat (10 # 100)])].

(** Three overrides of capex, the second of which is not a number. *)
Definition capex_sweep : dict (list atom) :=
  [("capex"%string, [AInt 4000000; ANone; AInt 5000000])].

(** A scenario with two years of investment and three of returns. *)
Definition base_case : FMIPCalculator.store :=
  {| FMIPCalculator.dicts :=
       [[("public_investment_cashflows", FMIPCalculator.VList 0%nat);
         ("tax_revenue_cashflows", FMIPCalculator.VList 1%nat);
         ("fiscal_avoidance_cashflows", FMIPCalculator.VList 2%nat);
         ("social_discount_rate", FMIPCalculator.VAtom (AFloat (5 # 100)))]%string];
     FMIPCalculator.lists :=
       [[AInt 1000; AInt 500]; [AInt 100; AInt 200; AInt 300]; [AInt 50; AInt 50]];
     FMIPCalculator.stdout := [] |}.

(** A scaling by a value that is not a number, a rate that makes the
    division fail and a series the scenario does not hold, among three
    overrides that succeed. *)
Definition fiscal_sweep : dict (list atom) :=
  [("tax_revenue_cashflows", [AInt 2; ANone]);
   ("social_discount_rate", [AInt (-1); AFloat (10 # 100)]);
   ("subsidy_cashflows", [AInt 1]);
   ("fiscal_avoidance_cashflows", [AFloat (1 # 2)])]%string.

(** ** Further inputs and formulas *)

(** The keys [calculate_lroma] reads, in the order it reads them. *)
Definition required_keys : list string :=
  ["capex"; "annual_distance"; "tco_per_km"; "freight_rate"; "discount_rate";
   "vehicle_life"]%string.

(** The reference run without its freight rate and its discount rate. *)
Definition fcev_incomplete : dict atom :=
  [("capex", AInt 4800000); ("annual_distance", AInt 100000);
   ("tco_per_km", AFloat (1320 # 100)); ("vehicle_life", AInt 8)]%string.

(** A Python int. *)
Definition is_int (a : atom) : bool :=
  match a with
  | AInt _ => true
  | _ => false
  end.

(** The reference run with a vehicle life given as the float 8.0. *)
Definition fcev_float_life : dict atom := setitem fcev "vehicle_life" (AFloat (8 # 1)).

(** The reference run with a freight rate of 15.00 per km, for which the
    levelized return is below 3. *)
Definition fcev_low_rate : dict atom := setitem fcev "freight_rate" (AFloat (1500 # 100)).

(** The fields [calculate_fmip] reads from a scenario. *)
Definition fmip_fields : list string :=
  ["public_investment_cashflows"; "social_discount_rate";
   "tax_revenue_cashflows"; "fiscal_avoidance_cashflows"]%string.

(** An exception other than [KeyError]. *)
Definition not_key_error (e : exn) : Prop :=
  match e with
  | KeyError _ => False
  | TypeError | ZeroDivisionError => True
  end.

(** The scenario of [zero_investment] without its fiscal-avoidance series. *)
Definition no_avoidance : FMIPCalculator.store :=
  {| FMIPCalculator.dicts :=
       [[("public_investment_cashflows", FMIPCalculator.VList 0%nat);
         ("tax_revenue_cashflows", FMIPCalculator.VList 1%nat);
         ("social_discount_rate", FMIPCalculator.VAtom (AFloat (5 # 100)))]%string];
     FMIPCalculator.lists := [[AInt 100]; [AInt 105]];
     FMIPCalculator.stdout := [] |}.

(** The scenario of [zero_investment] with one year of investment and a
    discount rate of -1. *)
Definition rate_minus_one : FMIPCalculator.store :=
  {| FMIPCalculator.dicts :=
       [[("public_investment_cashflows", FMIPCalculator.VList 0%nat);
         ("tax_revenue_cashflows", FMIPCalculator.VList 1%nat);
         ("fiscal_avoidance_cashflows", FMIPCalculator.VList 2%nat);
         ("social_discount_rate", FMIPCalculator.VAtom (AInt (-1)))]%string];
     FMIPCalculator.lists := [[AInt 100]; [AInt 105]; [AInt 210]];
     FMIPCalculator.stdout := [] |}.

(** ** [scenario_comparison], scenario by scenario *)

Section Comparison.

Variable st : FMIPCalculator.store.
Variable parameters : dict loc.

(** The row of a scenario whose FMIP is computed. *)
Definition comparison_row_of (scenario : string) (r : FMIPCalculator.fmip_result)
    : FMIPCalculator.comparison_row :=
  {| FMIPCalculator.cmp_scenario := scenario;
     FMIPCalculator.cmp_fmip := FMIPCalculator.fmip r;
     FMIPCalculator.cmp_public_investment := FMIPCalculator.pv_public_investment r;
     FMIPCalculator.cmp_tax_revenues := FMIPCalculator.pv_tax_revenues r;
     FMIPCalculator.cmp_fiscal_avoidance := FMIPCalculator.pv_fiscal_avoidance r;
     FMIPCalculator.cmp_total_fiscal_return := FMIPCalculator.total_fiscal_return r |}.

(** The rows of the scenarios that are computed, and the warnings of those
    that are not. *)
Definition comparison_rows (scenarios : list string)
    : list FMIPCalculator.comparison_row :=
  flat_map
    (fun scenario =>
       match FMIPCalculator.calculate_fmip st parameters scenario with
       | Ok r => [comparison_row_of scenario r]
       | Err _ => []
       end)
    scenarios.

Definition comparison_warnings (scenarios : list string) : list (string * exn) :=
  flat_map
    (fun scenario =>
       match FMIPCalculator.calculate_fmip st parameters scenario with
       | Ok _ => []
       | Err e => [(scenario, e)]
       end)
    scenarios.

(** The first exception, in the order of the scenarios, that
    [scenario_comparison] does not catch. *)
Fixpoint first_uncaught (scenarios : list string) : option exn :=
  match scenarios with
  | [] => None
  | scenario :: rest =>
      match FMIPCalculator.calculate_fmip st parameters scenario with
      | Ok _ => first_uncaught rest
      | Err e =>
          if FMIPCalculator.comparison_catches e then first_uncaught rest
          else Some e
      end
  end.

End Comparison.

(** ** [visualization.py]: [_save_figure] *)

Module InvestorStateVisualizer.

Fixpoint string_drop (n : nat) (s : string) : string :=
  match n, s with
  | O, _ => s
  | S _, EmptyString => EmptyString
  | S n', String _ s' => string_drop n' s'
  end.

(** [sub in s] on strings. *)
Fixpoint substring_in (sub s : string) : bool :=
  (String.prefix sub s
   || match s with
      | EmptyString => false
      | String _ s' => substring_in sub s'
      end)%bool.

(** [s.replace(old, new)] for an [old] that is not empty: the occurrences
    of [old] are replaced from the left, without overlap.  Each step
    consumes at least one character of [s], so the length of [s] is fuel
    enough. *)
Fixpoint replace_from (fuel : nat) (old new s : string) : string :=
  match fuel with
  | O => s
  | S fuel' =>
      if String.prefix old s then
        (new ++ replace_from fuel' old new (string_drop (String.length old) s))%string
      else
        match s with
        | EmptyString => EmptyString
        | String c s' => String c (replace_from fuel' old new s')
        end
  end.

Definition py_replace (old new s : string) : string :=
  replace_from (String.length s) old new s.

(** A call [fig.savefig(path, ...)]: the path, and the [dpi] argument when
    it is passed; the arguments [bbox_inches='tight'] and
    [transparent=False] are the same in every call. *)
Record savefig_call : Type := {
  path : string;
  dpi_arg : option Z
}.

(** [_save_figure(fig, save_path, dpi, formats)], as the calls of
    [fig.savefig] it makes, in order. *)
Definition _save_figure (save_path : string) (dpi : Z) (formats : list string)
    : list savefig_call :=
  flat_map
    (fun fmt =>
       if String.eqb fmt "png" then
         [{| path := py_replace ".png" ".png" save_path; dpi_arg := Some dpi |}]
       else if String.eqb fmt "pdf" then
         [{| path := py_replace ".png" ".pdf" save_path; dpi_arg := None |}]
       else if String.eqb fmt "svg" then
         [{| path := py_replace ".png" ".svg" save_path; dpi_arg := None |}]
       else [])
    formats.

(** The defaults of [dpi] and [formats]. *)
Definition default_dpi : Z := 300.
Definition default_formats : list string := ["png"; "pdf"]%string.

End InvestorStateVisualizer.

(** * Properties *)

(** ** Arithmetic on scalars *)

Lemma arith2_numeric fz fq a b c :
  arith2 fz fq a b = Ok c -> numeric c = true.
Proof.
  destruct a, b; simpl; intros H; inversion H; reflexivity.
Qed.

Lemma arith2_value fz fq a b :
  (forall x y, inject_Z (fz x y) == fq (inject_Z x) (inject_Z y)) ->
  numeric a = true -> numeric b = true ->
  exists c, arith2 fz fq a b = Ok c /\ numeric c = true
            /\ Qof c == fq (Qof a) (Qof b).
Proof.
  intros Hz Ha Hb.
  destruct a, b; try discriminate; simpl; eexists; split; try reflexivity;
    split; try reflexivity; simpl; auto.
Qed.

Lemma py_add_value a b :
  numeric a = true -> numeric b = true ->
  exists c, py_add a b = Ok c /\ numeric c = true /\ Qof c == Qof a + Qof b.
Proof.
  apply arith2_value. intros; rewrite inject_Z_plus; reflexivity.
Qed.

Lemma py_sub_value a b :
  numeric a = true -> numeric b = true ->
  exists c, py_sub a b = Ok c /\ numeric c = true /\ Qof c == Qof a - Qof b.
Proof.
  apply arith2_value. intros; unfold Z.sub, Qminus.
  rewrite inject_Z_plus, inject_Z_opp; reflexivity.
Qed.

Lemma py_mul_value a b :
  numeric a = true -> numeric b = true ->
  exists c, py_mul a b = Ok c /\ numeric c = true /\ Qof c == Qof a * Qof b.
Proof.
  apply arith2_value. intros; rewrite inject_Z_mult; reflexivity.
Qed.

Lemma py_neg_value a :
  numeric a = true ->
  exists c, py_neg a = Ok c /\ numeric c = true /\ Qof c == - Qof a.
Proof.
  destruct a; try discriminate; intros _; simpl; eexists; repeat split;
    simpl; reflexivity.
Qed.

Lemma py_pow_value a t :
  (0 <= t)%Z -> numeric a = true ->
  exists c, py_pow a t = Ok c /\ numeric c = true /\ Qof c == Qof a ^ t.
Proof.
  intros Ht Ha. destruct a; try discriminate; simpl; eexists; repeat split;
    simpl; try reflexivity.
  apply Zpower_Qpower; assumption.
Qed.

Lemma py_truediv_value a b :
  numeric a = true -> numeric b = true -> ~ Qof b == 0 ->
  py_truediv a b = Ok (AFloat (Qof a / Qof b)).
Proof.
  intros Ha Hb Hnz. unfold py_truediv.
  destruct (Qeq_bool (Qof b) 0) eqn:E.
  - apply Qeq_bool_iff in E. contradiction.
  - destruct a, b; try discriminate; reflexivity.
Qed.

Lemma py_truediv_numeric a b c :
  py_truediv a b = Ok c -> numeric c = true.
Proof.
  unfold py_truediv.
  destruct a, b; try discriminate;
    destruct (Qeq_bool _ 0); intros H; inversion H; reflexivity.
Qed.

(** The present-value term, on numbers and away from the rate -1. *)
Lemma discounted_value x r t :
  numeric x = true -> numeric r = true -> ~ Qof r == -1 -> (0 <= t)%Z ->
  exists v, discounted x r t = Ok v /\ numeric v = true
            /\ Qof v == Qof x / (1 + Qof r) ^ t.
Proof.
  intros Hx Hr Hne Ht. unfold discounted.
  destruct (py_add_value (AInt 1) r eq_refl Hr) as (b & -> & Hb & Vb).
  simpl. destruct (py_pow_value b t Ht Hb) as (p & -> & Hp & Vp).
  simpl. change (Qof (AInt 1)) with 1 in Vb.
  assert (Hnz : ~ Qof p == 0).
  { rewrite Vp, Vb. apply Qpower_not_0. intros H. apply Hne. lra. }
  rewrite (py_truediv_value x p Hx Hp Hnz).
  eexists; repeat split. simpl. rewrite Vp, Vb. reflexivity.
Qed.

(** ** Sums *)

Lemma sum_from_numeric {X} (term : X -> result atom) xs acc s :
  numeric acc = true -> sum_from term xs acc = Ok s -> numeric s = true.
Proof.
  revert acc. induction xs as [|x xs IH]; simpl; intros acc Ha H.
  - inversion H; subst; assumption.
  - destruct (term x) as [v|]; simpl in H; try discriminate.
    destruct (py_add acc v) as [acc'|] eqn:E; simpl in H; try discriminate.
    apply (IH acc'); auto. eapply arith2_numeric; exact E.
Qed.

Lemma sum_from_value {X} (term : X -> result atom) (g : X -> Q) xs :
  (forall x, In x xs ->
     exists v, term x = Ok v /\ numeric v = true /\ Qof v == g x) ->
  forall acc, numeric acc = true ->
  exists s, sum_from term xs acc = Ok s /\ numeric s = true
            /\ Qof s == Qof acc + total (map g xs).
Proof.
  induction xs as [|x xs IH]; intros Hterm acc Ha; simpl.
  - exists acc; repeat split; auto. lra.
  - destruct (Hterm x (or_introl eq_refl)) as (v & -> & Hv & Vv). simpl.
    destruct (py_add_value acc v Ha Hv) as (acc' & -> & Ha' & Va'). simpl.
    destruct (IH (fun y Hy => Hterm y (or_intror Hy)) acc' Ha')
      as (s & Hs & Hn & Vs).
    exists s; repeat split; auto. rewrite Vs, Va', Vv. lra.
Qed.

Lemma py_sum_value {X} (term : X -> result atom) (g : X -> Q) xs :
  (forall x, In x xs ->
     exists v, term x = Ok v /\ numeric v = true /\ Qof v == g x) ->
  exists s, py_sum term xs = Ok s /\ numeric s = true
            /\ Qof s == total (map g xs).
Proof.
  intros H. destruct (sum_from_value term g xs H (AInt 0) eq_refl)
    as (s & Hs & Hn & Vs).
  exists s; repeat split; auto. rewrite Vs. change (Qof (AInt 0)) with 0. lra.
Qed.

Lemma Sigma_from_ext lo n f g :
  (forall t, (lo <= t < lo + Z.of_nat n)%Z -> f t == g t) ->
  Sigma_from lo n f == Sigma_from lo n g.
Proof.
  revert lo. induction n as [|n IH]; intros lo H; simpl.
  - reflexivity.
  - rewrite (H lo) by lia. rewrite (IH (lo + 1)%Z).
    + reflexivity.
    + intros t Ht. apply H. lia.
Qed.

Lemma Sigma_from_scale lo n c f :
  Sigma_from lo n (fun t => c * f t) == c * Sigma_from lo n f.
Proof.
  revert lo. induction n as [|n IH]; intros lo; simpl.
  - lra.
  - rewrite IH. lra.
Qed.

Lemma Sigma_from_plus lo n f g :
  Sigma_from lo n (fun t => f t + g t) == Sigma_from lo n f + Sigma_from lo n g.
Proof.
  revert lo. induction n as [|n IH]; intros lo; simpl.
  - lra.
  - rewrite IH. lra.
Qed.

Lemma Sigma_from_pos lo n f :
  (0 < n)%nat ->
  (forall t, (lo <= t < lo + Z.of_nat n)%Z -> 0 < f t) ->
  0 < Sigma_from lo n f.
Proof.
  revert lo. induction n as [|n IH]; intros lo Hn H; [lia|].
  simpl. assert (H0 : 0 < f lo) by (apply H; lia).
  destruct n as [|n].
  - simpl. lra.
  - assert (0 < Sigma_from (lo + 1) (S n) f).
    { apply IH; [lia|]. intros t Ht; apply H; lia. }
    lra.
Qed.

Lemma total_range g lo hi :
  total (map g (range lo hi)) == Sigma_from lo (Z.to_nat (hi - lo)) g.
Proof.
  unfold range. generalize (Z.to_nat (hi - lo)) as n.
  assert (G : forall n k,
    total (map g (map (fun i => (lo + Z.of_nat i)%Z) (seq k n)))
    == Sigma_from (lo + Z.of_nat k) n g).
  { induction n as [|n IH]; intros k; simpl.
    - reflexivity.
    - rewrite IH. replace (lo + Z.of_nat (S k))%Z with (lo + Z.of_nat k + 1)%Z by lia.
      reflexivity. }
  intros n. rewrite G. replace (lo + Z.of_nat 0)%Z with lo by lia. reflexivity.
Qed.

Lemma In_range t lo hi : In t (range lo hi) -> (lo <= t)%Z.
Proof.
  unfold range. rewrite in_map_iff. intros (i & <- & _). lia.
Qed.

Lemma In_enumerate {X} (s : Z) (xs : list X) t x :
  In (t, x) (enumerate s xs) -> (s <= t)%Z /\ In x xs.
Proof.
  revert s. induction xs as [|y xs IH]; simpl; intros s H; [contradiction|].
  destruct H as [H|H].
  - inversion H; subst. split; [lia|auto].
  - destruct (IH _ H). split; [lia|auto].
Qed.

Lemma total_enumerate (h : Z -> Q -> Q) s xs :
  (forall t, Proper (Qeq ==> Qeq) (h t)) ->
  total (map (fun '(t, cf) => h t (Qof cf)) (enumerate s xs))
  == Sigma_from s (List.length xs) (fun t => h t (flow s xs t)).
Proof.
  intros Hh. revert s. induction xs as [|x xs IH]; intros s; simpl.
  - reflexivity.
  - rewrite IH. unfold flow at 2. replace (s - s)%Z with 0%Z by lia. simpl.
    apply Qplus_comp; [reflexivity|].
    apply Sigma_from_ext. intros t Ht. unfold flow.
    replace (Z.to_nat (t - s)) with (S (Z.to_nat (t - (s + 1)))) by lia.
    reflexivity.
Qed.

(** The discounted sum of a numeric series whose first flow is numbered
    [s], as written four times in the source. *)
Lemma discounted_sum_value s xs r :
  (0 <= s)%Z -> Forall (fun a => numeric a = true) xs ->
  numeric r = true -> ~ Qof r == -1 ->
  exists v, py_sum (fun '(t, cf) => discounted cf r t) (enumerate s xs) = Ok v
            /\ numeric v = true
            /\ Qof v == Sigma_from s (List.length xs)
                          (fun t => flow s xs t / (1 + Qof r) ^ t).
Proof.
  intros Hs Hxs Hr Hne.
  destruct (py_sum_value (fun '(t, cf) => discounted cf r t)
              (fun '(t, cf) => Qof cf / (1 + Qof r) ^ t) (enumerate s xs))
    as (v & Hv & Hn & Vv).
  { intros [t cf] Hin. apply In_enumerate in Hin. destruct Hin as [Ht Hin].
    rewrite Forall_forall in Hxs. apply discounted_value; auto. lia. }
  exists v; repeat split; auto. rewrite Vv.
  apply (total_enumerate (fun t q => q / (1 + Qof r) ^ t)).
  intros t a b Hab. rewrite Hab. reflexivity.
Qed.

(** ** [calculate_lroma] *)

Section LROMA.

Import LROMACalculator.

Variable vehicle_params : dict atom.
Variables capex annual_distance tco_per_km freight_rate discount_rate : atom.
Variable vehicle_life : Z.

Hypothesis Hparams :
  vehicle_parameters vehicle_params capex annual_distance tco_per_km
    freight_rate discount_rate vehicle_life.
Hypothesis Hrate : ~ Qof discount_rate == -1.

Let profit : Q := Qof annual_distance * (Qof freight_rate - Qof tco_per_km).
Let years : nat := Z.to_nat vehicle_life.

(** The run of [calculate_lroma], step by step: both sums are computed,
    and the result is their quotient or 0. *)
Lemma calculate_lroma_steps :
  exists npv pv_distance,
    numeric npv = true /\ numeric pv_distance = true
    /\ Qof npv == - Qof capex
                  + Sigma_from 1 years (fun t => profit / (1 + Qof discount_rate) ^ t)
    /\ Qof pv_distance
       == Sigma_from 1 years (fun t => Qof annual_distance / (1 + Qof discount_rate) ^ t)
    /\ calculate_lroma vehicle_params
       = if py_ne0 pv_distance then Ok (AFloat (Qof npv / Qof pv_distance))
         else Ok (AInt 0).
Proof.
  destruct Hparams as (H1 & H2 & H3 & H4 & H5 & H6 & N1 & N2 & N3 & N4 & N5).
  unfold calculate_lroma. rewrite H1, H2, H3, H4, H5, H6. cbn [bind].
  destruct (py_sub_value freight_rate tco_per_km N4 N3) as (margin & -> & Nm & Vm).
  cbn [bind].
  destruct (py_mul_value annual_distance margin N2 Nm) as (ap & -> & Nap & Vap).
  cbn [bind].
  destruct (py_neg_value capex N1) as (outlay & -> & No & Vo).
  cbn [bind py_list_repeat]. fold years.
  destruct (discounted_sum_value 0 (outlay :: repeat ap years) discount_rate)
    as (npv & Hnpv & Nnpv & Vnpv); auto; try lia.
  { constructor; auto. apply Forall_forall. intros x Hx.
    apply repeat_spec in Hx. subst; auto. }
  unfold inline_npv. rewrite Hnpv. cbn [bind py_add arith2 py_range].
  destruct (py_sum_value (fun t => discounted annual_distance discount_rate t)
              (fun t => Qof annual_distance / (1 + Qof discount_rate) ^ t)
              (range 1 (vehicle_life + 1)))
    as (pv & Hpv & Npv & Vpv).
  { intros t Ht. apply In_range in Ht. apply discounted_value; auto. lia. }
  rewrite Hpv. cbn [bind].
  exists npv, pv. repeat split; auto.
  - rewrite Vnpv. cbn [List.length Sigma_from]. rewrite repeat_length.
    unfold flow at 1. cbn. rewrite Vo.
    apply Qplus_comp; [field | ].
    apply Sigma_from_ext. intros t Ht. unfold flow.
    replace (Z.to_nat (t - 0)) with (S (Z.to_nat (t - 1))) by lia. cbn [nth].
    rewrite (nth_indep _ ANone ap) by (rewrite repeat_length; lia).
    rewrite nth_repeat. rewrite Vap, Vm. reflexivity.
  - rewrite Vpv, total_range.
    replace (Z.to_nat (vehicle_life + 1 - 1)) with years by (unfold years; lia).
    reflexivity.
  - unfold py_ne0. destruct (Qeq_bool (Qof pv) 0) eqn:E; cbn [negb]; [reflexivity|].
    apply py_truediv_value; auto. apply Qeq_bool_neq; assumption.
Qed.

End LROMA.

Lemma spec_pv_distance_unfold ad r n :
  spec_pv_distance ad r n
  = Sigma_from 1 (Z.to_nat n) (fun t => ad / (1 + r) ^ t).
Proof.
  unfold spec_pv_distance, Sigma. f_equal. lia.
Qed.

Lemma spec_npv_unfold capex ad tco fr r n :
  (0 <= n)%Z ->
  spec_npv capex ad tco fr r n
  == - capex + Sigma_from 1 (Z.to_nat n) (fun t => ad * (fr - tco) / (1 + r) ^ t).
Proof.
  intros Hn. unfold spec_npv, Sigma.
  replace (Z.to_nat (n + 1 - 0)) with (S (Z.to_nat n)) by lia.
  cbn [Sigma_from]. apply Qplus_comp.
  - unfold spec_cf. cbn. field.
  - apply Sigma_from_ext. intros t Ht. unfold spec_cf.
    destruct (Z.eqb_spec t 0); [lia | reflexivity].
Qed.

(** C1. For a vehicle-parameter mapping with the six required keys and a
    discount rate other than -1, [calculate_lroma] returns npv /
    pv_distance, where npv is the sum over t = 0..vehicle_life of
    cf_t / (1 + r)^t with cf_0 = -capex and cf_t = annual_distance *
    (freight_rate - tco_per_km) for t >= 1, and pv_distance is the sum over
    t = 1..vehicle_life of annual_distance / (1 + r)^t; it returns 0 when
    pv_distance is 0. *)
Theorem calculate_lroma_formula
    (vehicle_params : dict atom)
    (capex annual_distance tco_per_km freight_rate discount_rate : atom)
    (vehicle_life : Z) :
  vehicle_parameters vehicle_params capex annual_distance tco_per_km
    freight_rate discount_rate vehicle_life ->
  ~ Qof discount_rate == -1 ->
  let npv := spec_npv (Qof capex) (Qof annual_distance) (Qof tco_per_km)
               (Qof freight_rate) (Qof discount_rate) vehicle_life in
  let pv_distance :=
    spec_pv_distance (Qof annual_distance) (Qof discount_rate) vehicle_life in
  exists v, LROMACalculator.calculate_lroma vehicle_params = Ok v
    /\ (pv_distance == 0 -> Qof v == 0)
    /\ (~ pv_distance == 0 -> Qof v == npv / pv_distance).
Proof.
  intros Hp Hr npv pv_distance.
  destruct (calculate_lroma_steps _ _ _ _ _ _ _ Hp Hr)
    as (n & d & Nn & Nd & Vn & Vd & Hrun).
  subst npv pv_distance. rewrite spec_pv_distance_unfold.
  rewrite Hrun. unfold py_ne0.
  destruct (Qeq_bool (Qof d) 0) eqn:E; cbn [negb].
  - apply Qeq_bool_iff in E. exists (AInt 0). split; [reflexivity | split].
    + intros _. reflexivity.
    + intros Hnz. exfalso. apply Hnz. rewrite <- Vd. exact E.
  - apply Qeq_bool_neq in E. exists (AFloat (Qof n / Qof d)). split; [reflexivity | split].
    + intros Hz. exfalso. apply E. rewrite Vd. exact Hz.
    + intros _. cbn [Qof].
      assert (Hlife : (0 <= vehicle_life)%Z).
      { destruct (Z_le_gt_dec 0 vehicle_life) as [|Hneg]; [assumption|].
        exfalso. apply E. rewrite Vd.
        replace (Z.to_nat vehicle_life) with O by lia. reflexivity. }
      rewrite (spec_npv_unfold _ _ _ _ _ _ Hlife), <- Vn, <- Vd. reflexivity.
Qed.

Lemma calculate_lroma_formula_witness :
  exists v, LROMACalculator.calculate_lroma fcev = Ok v
    /\ (spec_pv_distance (100000 # 1) (8 # 100) 8 == 0 -> Qof v == 0)
    /\ (~ spec_pv_distance (100000 # 1) (8 # 100) 8 == 0 ->
        Qof v == spec_npv (4800000 # 1) (100000 # 1) (1320 # 100) (2500 # 100)
                   (8 # 100) 8
                 / spec_pv_distance (100000 # 1) (8 # 100) 8).
Proof.
  apply (calculate_lroma_formula fcev (AInt 4800000) (AInt 100000)
           (AFloat (1320 # 100)) (AFloat (2500 # 100)) (AFloat (8 # 100)) 8).
  - repeat split; reflexivity.
  - vm_compute. discriminate.
Defined.

(** C4 (as amended). On the reference run -- capex 4800000, annual
    distance 100000, tco 13.20 per km, freight rate 25.00 per km, discount
    rate 0.08, vehicle life 8 -- [calculate_lroma] returns a positive value
    that prints as 3.45 per km (3.4473 to four decimals). *)
Theorem calculate_lroma_reference_run :
  exists v, LROMACalculator.calculate_lroma fcev = Ok v
    /\ 0 < Qof v
    /\ 34472 # 10000 < Qof v < 34473 # 10000.
Proof.
  eexists. split; [vm_compute; reflexivity|]. vm_compute. auto.
Qed.

(** C4 as stated fails: the value returned on the reference run is not
    within 0.5 of 6.88. *)
Lemma calculate_lroma_reference_run_not_6_88 :
  ~ exists v, LROMACalculator.calculate_lroma fcev = Ok v
      /\ (688 # 100) - (1 # 2) <= Qof v <= (688 # 100) + (1 # 2).
Proof.
  intros (v & Hv & Hlo & _).
  vm_compute in Hv. inversion Hv; subst v. vm_compute in Hlo.
  apply Hlo. reflexivity.
Qed.

(** C5 as stated fails: with a freight rate above the cost per km, a life
    of 8 years and positive capex, distance and discount rate, the value
    returned is negative. *)
Lemma calculate_lroma_positive_counterexample :
  vehicle_parameters thin_margin (AInt 4800000) (AInt 100000)
    (AFloat (1320 # 100)) (AFloat (1330 # 100)) (AFloat (8 # 100)) 8
  /\ (1320 # 100) < (1330 # 100) /\ (1 <= 8)%Z
  /\ 0 < 4800000 # 1 /\ 0 < 100000 # 1 /\ 0 < 8 # 100
  /\ exists v, LROMACalculator.calculate_lroma thin_margin = Ok v /\ Qof v < 0.
Proof.
  split; [repeat split; reflexivity|].
  repeat (split; [reflexivity || lia|]).
  eexists. split; [vm_compute; reflexivity|]. reflexivity.
Qed.

Lemma Qdiv_pos_iff a d : 0 < d -> (0 < a / d <-> 0 < a).
Proof.
  intros Hd. assert (Hi : 0 < / d) by (apply Qinv_lt_0_compat; assumption).
  unfold Qdiv. split; intros H.
  - assert (E : a == a * / d * d) by (field; lra).
    rewrite E. apply Qmult_lt_0_compat; assumption.
  - apply Qmult_lt_0_compat; assumption.
Qed.

(** C5 (as amended). For a vehicle-parameter mapping with freight_rate >
    tco_per_km, vehicle_life >= 1 and positive capex, annual_distance and
    discount_rate, [calculate_lroma] returns a value, and that value is
    strictly positive exactly when the discounted annual profits exceed
    capex: capex < sum over t = 1..vehicle_life of annual_distance *
    (freight_rate - tco_per_km) / (1 + discount_rate)^t. *)
Theorem calculate_lroma_positive_iff
    (vehicle_params : dict atom)
    (capex annual_distance tco_per_km freight_rate discount_rate : atom)
    (vehicle_life : Z) :
  vehicle_parameters vehicle_params capex annual_distance tco_per_km
    freight_rate discount_rate vehicle_life ->
  Qof tco_per_km < Qof freight_rate ->
  (1 <= vehicle_life)%Z ->
  0 < Qof capex -> 0 < Qof annual_distance -> 0 < Qof discount_rate ->
  exists v, LROMACalculator.calculate_lroma vehicle_params = Ok v
    /\ (0 < Qof v <->
        Qof capex
        < Sigma 1 vehicle_life
            (fun t => Qof annual_distance * (Qof freight_rate - Qof tco_per_km)
                      / (1 + Qof discount_rate) ^ t)).
Proof.
  intros Hp Hmargin Hlife Hcapex Hdist Hrate.
  assert (Hr : ~ Qof discount_rate == -1) by lra.
  destruct (calculate_lroma_steps _ _ _ _ _ _ _ Hp Hr)
    as (n & d & Nn & Nd & Vn & Vd & Hrun).
  assert (Hd : 0 < Qof d).
  { rewrite Vd. apply Sigma_from_pos; [lia|]. intros t Ht.
    apply Qlt_shift_div_l.
    - apply Qpower_0_lt. lra.
    - lra. }
  unfold Sigma. replace (Z.to_nat (vehicle_life + 1 - 1)) with (Z.to_nat vehicle_life) by lia.
  rewrite Hrun. unfold py_ne0.
  destruct (Qeq_bool (Qof d) 0) eqn:E; cbn [negb].
  - apply Qeq_bool_iff in E. lra.
  - exists (AFloat (Qof n / Qof d)). split; [reflexivity|]. cbn [Qof].
    rewrite (Qdiv_pos_iff _ _ Hd). rewrite Vn. split; intros H; lra.
Qed.

Lemma calculate_lroma_positive_iff_witness :
  exists v, LROMACalculator.calculate_lroma fcev = Ok v
    /\ (0 < Qof v <->
        Qof (AInt 4800000)
        < Sigma 1 8
            (fun t => Qof (AInt 100000)
                      * (Qof (AFloat (2500 # 100)) - Qof (AFloat (1320 # 100)))
                      / (1 + Qof (AFloat (8 # 100))) ^ t)).
Proof.
  apply (calculate_lroma_positive_iff fcev (AInt 4800000) (AInt 100000)
           (AFloat (1320 # 100)) (AFloat (2500 # 100)) (AFloat (8 # 100)) 8).
  - repeat split; reflexivity.
  - reflexivity.
  - lia.
  - reflexivity.
  - reflexivity.
  - reflexivity.
Defined.

(** ** Present values *)

Lemma sum_from_ext {X} (term term' : X -> result atom) xs acc :
  (forall x, term x = term' x) ->
  sum_from term xs acc = sum_from term' xs acc.
Proof.
  intros H. revert acc. induction xs as [|x xs IH]; intros acc; simpl.
  - reflexivity.
  - rewrite H. destruct (term' x) as [v|]; simpl; [|reflexivity].
    destruct (py_add acc v); simpl; auto.
Qed.

(** On a list object that is not empty, [calculate_present_value] is the
    sum of the discounted terms numbered from 1. *)
Lemma calculate_present_value_nonempty lists l r :
  read_obj [] lists l <> [] ->
  FMIPCalculator.calculate_present_value lists
    (FMIPCalculator.VList l) (FMIPCalculator.VAtom r)
  = py_sum (fun '(t, cf) => discounted cf r t) (enumerate 1 (read_obj [] lists l)).
Proof.
  intros Hne. unfold FMIPCalculator.calculate_present_value, FMIPCalculator.truthy.
  destruct (read_obj [] lists l) as [|x xs] eqn:E; [congruence|].
  cbn [negb FMIPCalculator.iterate bind]. rewrite E.
  apply sum_from_ext. intros [t cf]. reflexivity.
Qed.

Lemma calculate_present_value_numeric lists cash_flows discount_rate v :
  FMIPCalculator.calculate_present_value lists cash_flows discount_rate = Ok v ->
  numeric v = true.
Proof.
  unfold FMIPCalculator.calculate_present_value.
  destruct (negb (FMIPCalculator.truthy lists cash_flows)).
  - intros H; inversion H; reflexivity.
  - destruct (FMIPCalculator.iterate lists cash_flows) as [flows|]; simpl;
      [|discriminate].
    apply sum_from_numeric. reflexivity.
Qed.

Lemma Sigma_from_one lo f : Sigma_from lo 1 f == f lo.
Proof. simpl. lra. Qed.

(** C3. For a cash-flow series of numbers and a discount rate r other than
    -1, [FMIPCalculator.calculate_present_value] returns the sum over
    t = 1..N of cf_t / (1 + r)^t; in particular a single flow is divided by
    (1 + r), and the empty series gives 0. *)
Theorem calculate_present_value_formula (lists : list (list atom)) (l : loc) (r : atom) :
  let cash_flows := read_obj [] lists l in
  Forall (fun a => numeric a = true) cash_flows ->
  numeric r = true -> ~ Qof r == -1 ->
  exists v,
    FMIPCalculator.calculate_present_value lists
      (FMIPCalculator.VList l) (FMIPCalculator.VAtom r) = Ok v
    /\ Qof v == spec_present_value cash_flows (Qof r)
    /\ (cash_flows = [] -> v = AFloat 0)
    /\ (forall c, cash_flows = [c] -> Qof v == Qof c / (1 + Qof r)).
Proof.
  intros cash_flows Hnum Hr Hne. subst cash_flows.
  destruct (read_obj [] lists l) as [|x xs] eqn:E.
  - exists (AFloat 0).
    unfold FMIPCalculator.calculate_present_value, FMIPCalculator.truthy.
    rewrite E. cbn [negb]. repeat split; try reflexivity.
    intros c Hc; discriminate.
  - assert (Hnonempty : read_obj [] lists l <> []) by (rewrite E; discriminate).
    rewrite (calculate_present_value_nonempty _ _ _ Hnonempty), E.
    destruct (discounted_sum_value 1 (x :: xs) r) as (v & Hv & Nv & Vv);
      auto; try lia.
    exists v. split; [exact Hv|].
    assert (Hspec : Qof v == spec_present_value (x :: xs) (Qof r)).
    { rewrite Vv. unfold spec_present_value, Sigma.
      replace (Z.to_nat (Z.of_nat (List.length (x :: xs)) + 1 - 1))
        with (List.length (x :: xs)) by lia.
      reflexivity. }
    split; [exact Hspec|]. split; [discriminate|].
    intros c Hc. inversion Hc; subst. rewrite Hspec.
    unfold spec_present_value, Sigma. cbn [List.length Z.of_nat].
    change (Z.to_nat (Z.pos (Pos.of_succ_nat 0) + 1 - 1)) with 1%nat.
    rewrite Sigma_from_one. unfold flow. cbn [Z.sub Z.to_nat nth].
    change (Z.to_nat (1 - 1)) with 0%nat. cbn [nth].
    rewrite Qpower_1_r. reflexivity.
Qed.

Lemma calculate_present_value_formula_witness :
  exists v,
    FMIPCalculator.calculate_present_value [[AInt 110; AInt 121]]
      (FMIPCalculator.VList 0%nat) (FMIPCalculator.VAtom (AFloat (1 # 10))) = Ok v
    /\ Qof v == spec_present_value [AInt 110; AInt 121] (1 # 10)
    /\ ([AInt 110; AInt 121] = [] -> v = AFloat 0)
    /\ (forall c, [AInt 110; AInt 121] = [c] ->
        Qof v == Qof c / (1 + (1 # 10))).
Proof.
  apply (calculate_present_value_formula [[AInt 110; AInt 121]] 0%nat
           (AFloat (1 # 10))).
  - repeat constructor.
  - reflexivity.
  - vm_compute. discriminate.
Defined.

Lemma fold_left_Qplus l a : fold_left Qplus l a == a + total l.
Proof.
  revert a. induction l as [|x l IH]; intros a; simpl.
  - lra.
  - rewrite IH. lra.
Qed.

Lemma plain_sum_total xs : plain_sum xs == total (map Qof xs).
Proof.
  unfold plain_sum. rewrite fold_left_Qplus. lra.
Qed.

Lemma map_snd_enumerate {X Y} (f : X -> Y) s (xs : list X) :
  map (fun '(_, x) => f x) (enumerate s xs) = map f xs.
Proof.
  revert s. induction xs as [|x xs IH]; intros s; simpl; [reflexivity|].
  rewrite IH. reflexivity.
Qed.

(** At rate 0 every discounted term is the flow itself, whatever number
    the first flow carries. *)
Lemma zero_rate_sum s xs r :
  (0 <= s)%Z -> Forall (fun a => numeric a = true) xs ->
  numeric r = true -> Qof r == 0 ->
  exists v, py_sum (fun '(t, cf) => discounted cf r t) (enumerate s xs) = Ok v
            /\ Qof v == plain_sum xs.
Proof.
  intros Hs Hxs Hr Hz.
  destruct (py_sum_value (fun '(t, cf) => discounted cf r t)
              (fun '(_, cf) => Qof cf) (enumerate s xs))
    as (v & Hv & Nv & Vv).
  { intros [t cf] Hin. apply In_enumerate in Hin. destruct Hin as [Ht Hin].
    rewrite Forall_forall in Hxs.
    destruct (discounted_value cf r t) as (v & Hv & Nv & Vv); auto; try lia.
    { rewrite Hz. discriminate. }
    exists v. repeat split; auto. rewrite Vv, Hz.
    setoid_replace (1 + 0) with 1 by lra. rewrite Qpower_1. field. }
  exists v. split; [exact Hv|].
  rewrite Vv, map_snd_enumerate, plain_sum_total. reflexivity.
Qed.

(** C8. At a discount rate of 0, both present-value computations -- the
    sum written in [calculate_lroma], numbered from 0, and
    [FMIPCalculator.calculate_present_value], numbered from 1 -- return the
    plain sum of the series. *)
Theorem present_value_at_zero_rate (lists : list (list atom)) (l : loc) (r : atom) :
  let cash_flows := read_obj [] lists l in
  Forall (fun a => numeric a = true) cash_flows ->
  numeric r = true -> Qof r == 0 ->
  (exists v, LROMACalculator.inline_npv cash_flows r = Ok v
             /\ Qof v == plain_sum cash_flows)
  /\ (exists v, FMIPCalculator.calculate_present_value lists
                  (FMIPCalculator.VList l) (FMIPCalculator.VAtom r) = Ok v
                /\ Qof v == plain_sum cash_flows).
Proof.
  intros cash_flows Hnum Hr Hz. subst cash_flows. split.
  - apply zero_rate_sum; auto. lia.
  - destruct (read_obj [] lists l) as [|x xs] eqn:E.
    + exists (AFloat 0).
      unfold FMIPCalculator.calculate_present_value, FMIPCalculator.truthy.
      rewrite E. split; reflexivity.
    + assert (Hnonempty : read_obj [] lists l <> []) by (rewrite E; discriminate).
      rewrite (calculate_present_value_nonempty _ _ _ Hnonempty), E.
      apply zero_rate_sum; auto. lia.
Qed.

Lemma present_value_at_zero_rate_witness :
  (exists v, LROMACalculator.inline_npv [AInt (-100); AFloat (5 # 2); AInt 40]
               (AFloat 0) = Ok v
             /\ Qof v == plain_sum [AInt (-100); AFloat (5 # 2); AInt 40])
  /\ (exists v, FMIPCalculator.calculate_present_value
                  [[AInt (-100); AFloat (5 # 2); AInt 40]]
                  (FMIPCalculator.VList 0%nat) (FMIPCalculator.VAtom (AFloat 0)) = Ok v
                /\ Qof v == plain_sum [AInt (-100); AFloat (5 # 2); AInt 40]).
Proof.
  apply (present_value_at_zero_rate [[AInt (-100); AFloat (5 # 2); AInt 40]]
           0%nat (AFloat 0)).
  - repeat constructor.
  - reflexivity.
  - reflexivity.
Defined.

Lemma total_shift b s xs :
  ~ b == 0 ->
  total (map (fun '(t, cf) => Qof cf / b ^ t) (enumerate s xs))
  == b * total (map (fun '(t, cf) => Qof cf / b ^ t) (enumerate (s + 1) xs)).
Proof.
  intros Hb. revert s. induction xs as [|x xs IH]; intros s; simpl.
  - lra.
  - rewrite (IH (s + 1)%Z).
    assert (Hp : ~ b ^ s == 0) by (apply Qpower_not_0; assumption).
    rewrite (Qpower_plus b s 1 Hb), Qpower_1_r. field. split; assumption.
Qed.

Lemma discounted_total s xs r :
  (0 <= s)%Z -> Forall (fun a => numeric a = true) xs ->
  numeric r = true -> ~ Qof r == -1 ->
  exists v, py_sum (fun '(t, cf) => discounted cf r t) (enumerate s xs) = Ok v
            /\ Qof v == total (map (fun '(t, cf) => Qof cf / (1 + Qof r) ^ t)
                                 (enumerate s xs)).
Proof.
  intros Hs Hxs Hr Hne.
  destruct (py_sum_value (fun '(t, cf) => discounted cf r t)
              (fun '(t, cf) => Qof cf / (1 + Qof r) ^ t) (enumerate s xs))
    as (v & Hv & Hn & Vv).
  { intros [t cf] Hin. apply In_enumerate in Hin. destruct Hin as [Ht Hin].
    rewrite Forall_forall in Hxs. apply discounted_value; auto. lia. }
  exists v; split; auto.
Qed.

(** C10. On a non-empty series of numbers and a rate r other than -1,
    [LROMACalculator.calculate_npv] returns what
    [FMIPCalculator.calculate_present_value] returns (both number the flows
    from 1); it is not the sum written in [calculate_lroma], which equals
    (1 + r) times [calculate_npv] of the same list, and so differs from it
    unless r or the value is 0. *)
Theorem calculate_npv_vs_present_value (lists : list (list atom)) (l : loc) (r : atom) :
  let cash_flows := read_obj [] lists l in
  cash_flows <> [] ->
  Forall (fun a => numeric a = true) cash_flows ->
  numeric r = true -> ~ Qof r == -1 ->
  LROMACalculator.calculate_npv cash_flows r
  = FMIPCalculator.calculate_present_value lists
      (FMIPCalculator.VList l) (FMIPCalculator.VAtom r)
  /\ exists v w,
       LROMACalculator.inline_npv cash_flows r = Ok v
       /\ LROMACalculator.calculate_npv cash_flows r = Ok w
       /\ Qof v == (1 + Qof r) * Qof w
       /\ (~ Qof r == 0 -> ~ Qof w == 0 -> ~ Qof v == Qof w).
Proof.
  intros cash_flows Hne Hnum Hr Hrate. subst cash_flows. split.
  - rewrite (calculate_present_value_nonempty _ _ _ Hne). reflexivity.
  - destruct (discounted_total 0 (read_obj [] lists l) r) as (v & Hv & Vv);
      auto; try lia.
    destruct (discounted_total 1 (read_obj [] lists l) r) as (w & Hw & Vw);
      auto; try lia.
    exists v, w. split; [exact Hv|]. split; [exact Hw|].
    assert (Hb : ~ 1 + Qof r == 0) by (intros H; apply Hrate; lra).
    assert (E : Qof v == (1 + Qof r) * Qof w).
    { rewrite Vv, Vw. apply (total_shift (1 + Qof r) 0); assumption. }
    split; [exact E|].
    intros Hr0 Hw0 Heq. rewrite E in Heq.
    assert (Hprod : Qof r * Qof w == 0) by lra.
    apply Qmult_integral in Hprod. tauto.
Qed.

Lemma calculate_npv_vs_present_value_witness :
  LROMACalculator.calculate_npv [AInt 110; AInt 121] (AFloat (1 # 10))
  = FMIPCalculator.calculate_present_value [[AInt 110; AInt 121]]
      (FMIPCalculator.VList 0%nat) (FMIPCalculator.VAtom (AFloat (1 # 10)))
  /\ exists v w,
       LROMACalculator.inline_npv [AInt 110; AInt 121] (AFloat (1 # 10)) = Ok v
       /\ LROMACalculator.calculate_npv [AInt 110; AInt 121] (AFloat (1 # 10)) = Ok w
       /\ Qof v == (1 + (1 # 10)) * Qof w
       /\ (~ (1 # 10) == 0 -> ~ Qof w == 0 -> ~ Qof v == Qof w).
Proof.
  apply (calculate_npv_vs_present_value [[AInt 110; AInt 121]] 0%nat
           (AFloat (1 # 10))).
  - discriminate.
  - repeat constructor.
  - reflexivity.
  - vm_compute. discriminate.
Defined.

(** ** [calculate_fmip] *)

Lemma py_gt0_iff a : py_gt0 a = true <-> 0 < Qof a.
Proof.
  unfold py_gt0. rewrite (Qgt_alt (Qof a) 0).
  destruct (Qof a ?= 0); split; intros H; congruence.
Qed.

Lemma getitem_contains {V} (d : dict V) k v :
  getitem d k = Ok v -> contains k d = true.
Proof.
  unfold getitem, contains. destruct (lookup k d); [reflexivity|discriminate].
Qed.

(** C2. When the scenario holds its three cash-flow series and its
    discount rate and the three present values are computed,
    [calculate_fmip] returns -- it raises no division error for a zero
    denominator -- and the ratio follows the three-way branch: the
    quotient (pv_tax + pv_avoidance) / pv_investment when pv_investment is
    not 0; +infinity when pv_investment is 0 and pv_tax + pv_avoidance > 0;
    the float 0 otherwise. *)
Theorem calculate_fmip_three_way
    (st : FMIPCalculator.store) (parameters : dict loc) (scenario : string)
    (ref : loc) (cf_investment cf_tax cf_avoidance rate : FMIPCalculator.val)
    (pv_investment pv_tax pv_avoidance : atom) :
  let scenario_params := read_obj [] (FMIPCalculator.dicts st) ref in
  let lists := FMIPCalculator.lists st in
  getitem parameters scenario = Ok ref ->
  getitem scenario_params "public_investment_cashflows" = Ok cf_investment ->
  getitem scenario_params "tax_revenue_cashflows" = Ok cf_tax ->
  getitem scenario_params "fiscal_avoidance_cashflows" = Ok cf_avoidance ->
  getitem scenario_params "social_discount_rate" = Ok rate ->
  FMIPCalculator.calculate_present_value lists cf_investment rate = Ok pv_investment ->
  FMIPCalculator.calculate_present_value lists cf_tax rate = Ok pv_tax ->
  FMIPCalculator.calculate_present_value lists cf_avoidance rate = Ok pv_avoidance ->
  exists res,
    FMIPCalculator.calculate_fmip st parameters scenario = Ok res
    /\ FMIPCalculator.pv_public_investment res = pv_investment
    /\ FMIPCalculator.pv_tax_revenues res = pv_tax
    /\ FMIPCalculator.pv_fiscal_avoidance res = pv_avoidance
    /\ (~ Qof pv_investment == 0 ->
        exists q, FMIPCalculator.fmip res = FMIPCalculator.Finite q
                  /\ Qof q == (Qof pv_tax + Qof pv_avoidance) / Qof pv_investment)
    /\ (Qof pv_investment == 0 -> 0 < Qof pv_tax + Qof pv_avoidance ->
        FMIPCalculator.fmip res = FMIPCalculator.Infinity)
    /\ (Qof pv_investment == 0 -> ~ 0 < Qof pv_tax + Qof pv_avoidance ->
        FMIPCalculator.fmip res = FMIPCalculator.Finite (AFloat 0)).
Proof.
  intros scenario_params lists Href H1 H2 H3 Hr P1 P2 P3.
  subst scenario_params lists.
  unfold FMIPCalculator.calculate_fmip.
  rewrite (getitem_contains _ _ _ Href), Href. cbn [negb bind].
  rewrite H1, Hr. cbn [bind]. rewrite P1. cbn [bind].
  rewrite H2. cbn [bind]. rewrite P2. cbn [bind].
  rewrite H3. cbn [bind]. rewrite P3. cbn [bind FMIPCalculator.reraise_key_error].
  assert (N1 := calculate_present_value_numeric _ _ _ _ P1).
  assert (N2 := calculate_present_value_numeric _ _ _ _ P2).
  assert (N3 := calculate_present_value_numeric _ _ _ _ P3).
  destruct (py_add_value pv_tax pv_avoidance N2 N3) as (tot & Htot & Nt & Vt).
  rewrite Htot. cbn [bind]. unfold py_eq0.
  destruct (Qeq_bool (Qof pv_investment) 0) eqn:E.
  - apply Qeq_bool_iff in E. cbn [bind].
    eexists. split; [reflexivity|]. cbn.
    repeat (split; [reflexivity|]). split; [|split].
    + intros Hnz. contradiction.
    + intros _ Hpos. rewrite <- Vt in Hpos. apply py_gt0_iff in Hpos.
      rewrite Hpos. reflexivity.
    + intros _ Hnpos. destruct (py_gt0 tot) eqn:G; [|reflexivity].
      apply py_gt0_iff in G. rewrite Vt in G. contradiction.
  - apply Qeq_bool_neq in E.
    rewrite (py_truediv_value tot pv_investment Nt N1 E). cbn [bind].
    eexists. split; [reflexivity|]. cbn.
    repeat (split; [reflexivity|]). split; [|split].
    + intros _. eexists. split; [reflexivity|]. cbn [Qof]. rewrite Vt. reflexivity.
    + intros Hz. contradiction.
    + intros Hz. contradiction.
Qed.

Lemma calculate_fmip_three_way_witness :
  exists res,
    FMIPCalculator.calculate_fmip zero_investment [("base_case"%string, 0%nat)]
      "base_case" = Ok res
    /\ FMIPCalculator.fmip res = FMIPCalculator.Infinity.
Proof.
  edestruct (calculate_fmip_three_way zero_investment
               [("base_case"%string, 0%nat)] "base_case")
    as (res & Hres & _ & _ & _ & _ & Hinf & _); try reflexivity.
  exists res. split; [exact Hres|]. apply Hinf; reflexivity.
Defined.

(** ** The not-found message *)

Lemma string_app_assoc (a b c : string) :
  ((a ++ b) ++ c = a ++ b ++ c)%string.
Proof.
  induction a as [|x a IH]; simpl; [reflexivity|]. rewrite IH. reflexivity.
Qed.

Lemma string_app_nil_r (a : string) : (a ++ "" = a)%string.
Proof.
  induction a as [|x a IH]; simpl; [reflexivity|]. rewrite IH. reflexivity.
Qed.

Lemma occurs_in_refl s : occurs_in s s.
Proof.
  exists ""%string, ""%string. simpl. rewrite string_app_nil_r. reflexivity.
Qed.

Lemma occurs_in_context s a t b :
  occurs_in s t -> occurs_in s (a ++ t ++ b)%string.
Proof.
  intros (u & v & ->). exists (a ++ u)%string, (v ++ b)%string.
  rewrite !string_app_assoc. reflexivity.
Qed.

Lemma occurs_in_concat sep x l :
  In x l -> occurs_in x (String.concat sep l).
Proof.
  induction l as [|y l IH]; intros Hin; [contradiction|].
  destruct l as [|z l].
  - destruct Hin as [->|[]]. apply occurs_in_refl.
  - change (String.concat sep (y :: z :: l))
      with (y ++ sep ++ String.concat sep (z :: l))%string.
    destruct Hin as [->|Hin].
    + exists ""%string, (sep ++ String.concat sep (z :: l))%string. reflexivity.
    + apply IH in Hin. revert Hin.
      generalize (String.concat sep (z :: l)) as rest. intros rest Hin.
      rewrite <- (string_app_nil_r rest), <- string_app_assoc.
      apply occurs_in_context. exact Hin.
Qed.

(** C6. For a scenario name that is not a key of the parameter mapping,
    [calculate_fmip] returns no result: it raises a [KeyError] whose
    message holds the requested name and the repr of every key of the
    mapping. *)
Theorem calculate_fmip_unknown_scenario
    (st : FMIPCalculator.store) (parameters : dict loc) (scenario : string) :
  contains scenario parameters = false ->
  exists msg,
    FMIPCalculator.calculate_fmip st parameters scenario = Err (KeyError msg)
    /\ occurs_in scenario msg
    /\ Forall (fun k => occurs_in (py_repr k) msg) (keys parameters).
Proof.
  intros Habsent. unfold FMIPCalculator.calculate_fmip. rewrite Habsent.
  cbn [negb]. eexists. split; [reflexivity|].
  unfold FMIPCalculator.not_found_message. split.
  - exists "Scenario '"%string. eexists. reflexivity.
  - apply Forall_forall. intros k Hk.
    rewrite <- string_app_assoc, <- string_app_assoc.
    rewrite <- (string_app_nil_r (repr_list (keys parameters))).
    apply occurs_in_context. unfold repr_list.
    apply occurs_in_context. apply occurs_in_concat.
    apply in_map. exact Hk.
Qed.

Lemma calculate_fmip_unknown_scenario_witness :
  exists msg,
    FMIPCalculator.calculate_fmip zero_investment
      [("base_case"%string, 0%nat); ("optimistic"%string, 0%nat)] "pessimistic"
    = Err (KeyError msg)
    /\ occurs_in "pessimistic" msg
    /\ Forall (fun k => occurs_in (py_repr k) msg)
         (keys [("base_case"%string, 0%nat); ("optimistic"%string, 0%nat)]).
Proof.
  apply (calculate_fmip_unknown_scenario zero_investment
           [("base_case"%string, 0%nat); ("optimistic"%string, 0%nat)]
           "pessimistic").
  reflexivity.
Defined.

(** ** Objects *)

Lemma read_obj_app_l {O} (d : O) l e i :
  (i < List.length l)%nat -> read_obj d (l ++ e) i = read_obj d l i.
Proof.
  intros Hi. unfold read_obj. apply app_nth1. exact Hi.
Qed.

Lemma read_obj_app_last {O} (d : O) l x :
  read_obj d (l ++ [x]) (List.length l) = x.
Proof.
  unfold read_obj. apply nth_middle.
Qed.

Lemma write_obj_app_last {O} (l : list O) x y :
  write_obj (l ++ [x]) (List.length l) y = (l ++ [y])%list.
Proof.
  induction l as [|o l IH]; simpl; [reflexivity|]. rewrite IH. reflexivity.
Qed.

(** ** The LROMA sweep *)

Section LROMASweep.

Import LROMACalculator.

Variable base_params : loc.

(** One step of the sweep: a new dict holding the overridden entries is
    added, no other object changes, and the row is appended, the override
    skipped, or the exception passed on. *)
Lemma sweep_step_run param_name results v w :
  let d := setitem (read_obj [] (dicts w) base_params) param_name v in
  exists out,
    sweep_step base_params param_name results v w
    = ({| dicts := dicts w ++ [d]; stdout := out |},
       match calculate_lroma d with
       | Ok x => Ok (results ++ [{| parameter := param_name; value := v; lroma := x |}])%list
       | Err e => if catches e then Ok results else Err e
       end).
Proof.
  intros d. unfold sweep_step, mbind, dict_copy, dict_setitem, try_except,
    calculate_lroma_at, ret, print.
  cbn [dicts stdout]. rewrite write_obj_app_last, !read_obj_app_last.
  fold d. destruct (calculate_lroma d) as [x|e].
  - eexists. reflexivity.
  - destruct (catches e); eexists; reflexivity.
Qed.

Lemma inner_loop_frame param_name values :
  forall results w,
  exists ext,
    dicts (fst (for_each values (sweep_step base_params param_name) results w))
    = (dicts w ++ ext)%list.
Proof.
  induction values as [|v values IH]; intros results w.
  - exists []. simpl. rewrite app_nil_r. reflexivity.
  - cbn [for_each]. unfold mbind at 1.
    destruct (sweep_step_run param_name results v w) as (out & ->).
    destruct (calculate_lroma _) as [x|e]; [|destruct (catches e)].
    + edestruct IH as (ext & ->). cbn [dicts]. rewrite <- app_assoc.
      eexists. reflexivity.
    + edestruct IH as (ext & ->). cbn [dicts]. rewrite <- app_assoc.
      eexists. reflexivity.
    + eexists. reflexivity.
Qed.

Lemma sweep_frame parameter_ranges :
  forall results w,
  exists ext,
    dicts (fst (for_each parameter_ranges
                  (fun results '(param_name, values) =>
                     for_each values (sweep_step base_params param_name) results)
                  results w))
    = (dicts w ++ ext)%list.
Proof.
  induction parameter_ranges as [|[p values] ranges IH]; intros results w.
  - exists []. simpl. rewrite app_nil_r. reflexivity.
  - cbn [for_each]. unfold mbind at 1.
    destruct (inner_loop_frame p values results w) as (ext & Hext).
    destruct (for_each values _ results w) as [w1 [acc|e]]; cbn [fst] in Hext.
    + edestruct IH as (ext' & ->). rewrite Hext, <- app_assoc.
      eexists. reflexivity.
    + cbn [fst]. eexists. exact Hext.
Qed.

Variable base : dict atom.

Let rows_of (param_name : string) (v : atom) : list row :=
  match calculate_lroma (setitem base param_name v) with
  | Ok x => [{| parameter := param_name; value := v; lroma := x |}]
  | Err _ => []
  end.

Let caught (param_name : string) (v : atom) : bool :=
  match calculate_lroma (setitem base param_name v) with
  | Ok _ => true
  | Err e => catches e
  end.

Lemma inner_loop_rows param_name values :
  forall results w,
  (base_params < List.length (dicts w))%nat ->
  read_obj [] (dicts w) base_params = base ->
  forallb (caught param_name) values = true ->
  exists w',
    for_each values (sweep_step base_params param_name) results w
    = (w', Ok (results ++ flat_map (rows_of param_name) values)%list)
    /\ (base_params < List.length (dicts w'))%nat
    /\ read_obj [] (dicts w') base_params = base.
Proof.
  induction values as [|v values IH]; intros results w Hvalid Hbase Hcaught.
  - exists w. simpl. rewrite app_nil_r. auto.
  - cbn [forallb] in Hcaught. apply andb_true_iff in Hcaught.
    destruct Hcaught as [Hv Hrest].
    cbn [for_each flat_map]. unfold mbind at 1.
    destruct (sweep_step_run param_name results v w) as (out & ->).
    rewrite Hbase. unfold caught in Hv. unfold rows_of at 1.
    set (w1 := {| dicts := dicts w ++ [setitem base param_name v]; stdout := out |}).
    assert (Hvalid1 : (base_params < List.length (dicts w1))%nat).
    { cbn [w1 dicts]. rewrite length_app. lia. }
    assert (Hbase1 : read_obj [] (dicts w1) base_params = base).
    { cbn [w1 dicts]. rewrite read_obj_app_l; assumption. }
    destruct (calculate_lroma (setitem base param_name v)) as [x|e].
    + destruct (IH (results ++ [{| parameter := param_name; value := v; lroma := x |}])%list
                  w1 Hvalid1 Hbase1 Hrest) as (w' & -> & H1 & H2).
      exists w'. rewrite <- app_assoc. auto.
    + rewrite Hv.
      destruct (IH results w1 Hvalid1 Hbase1 Hrest) as (w' & -> & H1 & H2).
      exists w'. auto.
Qed.

Lemma sweep_rows parameter_ranges :
  forall results w,
  (base_params < List.length (dicts w))%nat ->
  read_obj [] (dicts w) base_params = base ->
  only_caught base parameter_ranges = true ->
  exists w',
    for_each parameter_ranges
      (fun results '(param_name, values) =>
         for_each values (sweep_step base_params param_name) results)
      results w
    = (w', Ok (results ++ lroma_rows base parameter_ranges)%list).
Proof.
  induction parameter_ranges as [|[p values] ranges IH];
    intros results w Hvalid Hbase Hcaught.
  - exists w. simpl. rewrite app_nil_r. reflexivity.
  - unfold only_caught in Hcaught. cbn [forallb] in Hcaught.
    apply andb_true_iff in Hcaught. destruct Hcaught as [Hp Hrest].
    cbn [for_each]. unfold mbind at 1.
    destruct (inner_loop_rows p values results w Hvalid Hbase Hp)
      as (w1 & -> & Hvalid1 & Hbase1).
    destruct (IH (results ++ flat_map (rows_of p) values)%list w1
                Hvalid1 Hbase1 Hrest) as (w' & ->).
    exists w'. unfold lroma_rows. cbn [flat_map]. rewrite <- app_assoc.
    reflexivity.
Qed.

End LROMASweep.

(** ** The FMIP sweep *)

Lemma lookup_setitem {V} (d : dict V) p x k :
  lookup k (setitem d p x) = if String.eqb p k then Some x else lookup k d.
Proof.
  induction d as [|[k' v'] d IH]; simpl.
  - reflexivity.
  - destruct (String.eqb_spec k' p) as [->|Hne]; simpl.
    + destruct (String.eqb p k); reflexivity.
    + rewrite IH. destruct (String.eqb_spec k' k) as [->|Hne'].
      * destruct (String.eqb_spec p k) as [->|]; [congruence|reflexivity].
      * reflexivity.
Qed.

Lemma lookup_In {V} (d : dict V) k v :
  lookup k d = Some v -> exists k', In (k', v) d.
Proof.
  induction d as [|[k' v'] d IH]; simpl; [discriminate|].
  destruct (String.eqb k' k).
  - intros H; inversion H; subst. exists k'. auto.
  - intros H. destruct (IH H) as (k'' & Hin). exists k''. auto.
Qed.

Section FMIPSweep.

Import FMIPCalculator.

Lemma present_value_resolve L cf r L' cf' r' :
  resolve L cf = resolve L' cf' -> resolve L r = resolve L' r' ->
  calculate_present_value L cf r = calculate_present_value L' cf' r'.
Proof.
  intros Hcf Hr.
  assert (Hs : scalar r = scalar r').
  { destruct r, r'; simpl in Hr; inversion Hr; reflexivity. }
  unfold calculate_present_value.
  destruct cf as [a|l], cf' as [a'|l']; simpl in Hcf; inversion Hcf; subst.
  - rewrite Hs. reflexivity.
  - unfold truthy, iterate. rewrite H0, Hs. reflexivity.
Qed.

Lemma getitem_resolve L d L' d' k :
  same_scenario L d L' d' ->
  match getitem d k, getitem d' k with
  | Ok v, Ok v' => resolve L v = resolve L' v'
  | Err e, Err e' => e = e'
  | _, _ => False
  end.
Proof.
  intros H. specialize (H k). unfold getitem.
  destruct (lookup k d), (lookup k d'); simpl in H;
    try discriminate; [inversion H|]; auto.
Qed.

(** [calculate_fmip] depends on the state only through what the scenario
    denotes. *)
Lemma calculate_fmip_resolve st parameters st' parameters' scenario ref ref' :
  getitem parameters scenario = Ok ref ->
  getitem parameters' scenario = Ok ref' ->
  same_scenario (lists st) (read_obj [] (dicts st) ref)
                (lists st') (read_obj [] (dicts st') ref') ->
  calculate_fmip st parameters scenario = calculate_fmip st' parameters' scenario.
Proof.
  intros Href Href' Hsame. unfold calculate_fmip.
  rewrite (getitem_contains _ _ _ Href), (getitem_contains _ _ _ Href'),
    Href, Href'.
  cbn [negb bind].
  generalize dependent (read_obj [] (dicts st) ref).
  generalize dependent (read_obj [] (dicts st') ref').
  intros d' d Hsame.
  assert (H1 := getitem_resolve _ _ _ _ "public_investment_cashflows" Hsame).
  assert (H2 := getitem_resolve _ _ _ _ "tax_revenue_cashflows" Hsame).
  assert (H3 := getitem_resolve _ _ _ _ "fiscal_avoidance_cashflows" Hsame).
  assert (Hr := getitem_resolve _ _ _ _ "social_discount_rate" Hsame).
  destruct (getitem d "public_investment_cashflows") as [cf1|e1],
           (getitem d' "public_investment_cashflows") as [cf1'|e1'];
    try contradiction; [|subst e1'; reflexivity].
  destruct (getitem d "social_discount_rate") as [r|er],
           (getitem d' "social_discount_rate") as [r'|er'];
    try contradiction; [|subst er'; reflexivity].
  cbn [bind]. rewrite (present_value_resolve _ _ _ _ _ _ H1 Hr).
  destruct (calculate_present_value (lists st') cf1' r') as [pv1|]; [|reflexivity].
  destruct (getitem d "tax_revenue_cashflows") as [cf2|e2],
           (getitem d' "tax_revenue_cashflows") as [cf2'|e2'];
    try contradiction; [|subst e2'; reflexivity].
  cbn [bind]. rewrite (present_value_resolve _ _ _ _ _ _ H2 Hr).
  destruct (calculate_present_value (lists st') cf2' r') as [pv2|]; [|reflexivity].
  destruct (getitem d "fiscal_avoidance_cashflows") as [cf3|e3],
           (getitem d' "fiscal_avoidance_cashflows") as [cf3'|e3'];
    try contradiction; [|subst e3'; reflexivity].
  cbn [bind]. rewrite (present_value_resolve _ _ _ _ _ _ H3 Hr).
  reflexivity.
Qed.

Lemma same_scenario_setitem L L' d p x x' :
  (forall k l, lookup k d = Some (VList l) ->
               read_obj [] L l = read_obj [] L' l) ->
  resolve L x = resolve L' x' ->
  same_scenario L (setitem d p x) L' (setitem d p x').
Proof.
  intros Hrefs Hx k. rewrite !lookup_setitem.
  destruct (String.eqb p k); simpl; [congruence|].
  destruct (lookup k d) as [[a|l]|] eqn:E; simpl; try reflexivity.
  rewrite (Hrefs k l E). reflexivity.
Qed.

Lemma valid_scenario_spec st base :
  valid_scenario st base = true ->
  (base < List.length (dicts st))%nat
  /\ forall k l, lookup k (read_obj [] (dicts st) base) = Some (VList l) ->
                 (l < List.length (lists st))%nat.
Proof.
  unfold valid_scenario. rewrite andb_true_iff, Nat.ltb_lt, forallb_forall.
  intros [Hb Hall]. split; [exact Hb|]. intros k l Hk.
  destruct (lookup_In _ _ _ Hk) as (k' & Hin).
  specialize (Hall _ Hin). simpl in Hall. apply Nat.ltb_lt. exact Hall.
Qed.

Lemma extends_refl st : extends st st.
Proof.
  split; exists []; rewrite app_nil_r; reflexivity.
Qed.

Variable fmt : atom -> string.
Variable base_params : loc.
Variable base_scenario : string.

Let row_of (param_name : string) (v : atom) (r : fmip_result) : row :=
  {| row_parameter := param_name; row_value := v;
     row_fmip := fmip r; row_scenario := base_scenario |}.

(** One sweep point: a new dict is added, and a new list when a series is
    scaled; no other object changes. *)
Lemma sweep_point_run param_name v st :
  let d := read_obj [] (dicts st) base_params in
  let key := temp_key fmt param_name v in
  let m := List.length (dicts st) in
  sweep_point fmt base_params base_scenario param_name v st
  = match scaled_series (lists st) d param_name v with
    | Err e =>
        ({| dicts := dicts st ++ [d]; lists := lists st; stdout := stdout st |},
         Err e)
    | Ok None =>
        let st1 := {| dicts := dicts st ++ [setitem d param_name (VAtom v)];
                      lists := lists st; stdout := stdout st |} in
        (st1, r <- calculate_fmip st1 [(key, m)] key ;; Ok (row_of param_name v r))
    | Ok (Some ys) =>
        let st1 := {| dicts := dicts st
                               ++ [setitem d param_name (VList (List.length (lists st)))];
                      lists := lists st ++ [ys]; stdout := stdout st |} in
        (st1, r <- calculate_fmip st1 [(key, m)] key ;; Ok (row_of param_name v r))
    end.
Proof.
  intros d key m. unfold sweep_point, scaled_series.
  destruct (endswith param_name "_cashflows").
  - unfold mbind, dict_copy, dict_getitem, iterate_at, lift, list_new,
      dict_setitem, calculate_fmip_at, ret.
    cbn [dicts lists stdout]. rewrite !read_obj_app_last. fold d.
    destruct (getitem d param_name) as [old|e]; cbn [bind]; [|reflexivity].
    destruct (iterate (lists st) old) as [xs|e]; cbn [bind]; [|reflexivity].
    destruct (scale xs v) as [ys|e]; cbn [bind]; [|reflexivity].
    rewrite write_obj_app_last. fold key m.
    destruct (calculate_fmip _ _ key); reflexivity.
  - unfold mbind, dict_copy, dict_setitem, calculate_fmip_at, ret.
    cbn [dicts lists stdout]. rewrite !read_obj_app_last, write_obj_app_last.
    fold d key m.
    destruct (calculate_fmip _ _ key); reflexivity.
Qed.

Lemma sweep_point_extends param_name v st :
  extends st (fst (sweep_point fmt base_params base_scenario param_name v st)).
Proof.
  rewrite sweep_point_run.
  destruct (scaled_series _ _ _ _) as [[ys|]|e]; cbn [fst dicts lists];
    split; try (eexists; reflexivity); exists []; rewrite app_nil_r; reflexivity.
Qed.

Lemma temp_lookup key (m : loc) : getitem [(key, m)] key = Ok m.
Proof.
  unfold getitem. simpl. rewrite String.eqb_refl. reflexivity.
Qed.

Variable st0 : store.
Hypothesis Hvalid : valid_scenario st0 base_params = true.

(** A sweep point gives the same result in any state that extends the
    initial one. *)
Lemma sweep_point_result_extends param_name v st :
  extends st0 st ->
  snd (sweep_point fmt base_params base_scenario param_name v st)
  = snd (sweep_point fmt base_params base_scenario param_name v st0).
Proof.
  intros [(e1 & Hd) (e2 & Hl)].
  destruct (valid_scenario_spec _ _ Hvalid) as [Hb Hrefs].
  rewrite !sweep_point_run.
  assert (Hbase : read_obj [] (dicts st) base_params
                  = read_obj [] (dicts st0) base_params).
  { rewrite Hd. apply read_obj_app_l. exact Hb. }
  rewrite Hbase. set (d := read_obj [] (dicts st0) base_params) in *.
  assert (Hread : forall k l, lookup k d = Some (VList l) ->
                  forall ext ext', read_obj [] (lists st ++ ext) l
                                   = read_obj [] (lists st0 ++ ext') l).
  { intros k l Hk ext ext'. specialize (Hrefs k l Hk).
    rewrite Hl, <- app_assoc, !read_obj_app_l by assumption. reflexivity. }
  assert (Hscaled : scaled_series (lists st) d param_name v
                    = scaled_series (lists st0) d param_name v).
  { unfold scaled_series. destruct (endswith param_name "_cashflows"); [|reflexivity].
    unfold getitem. destruct (lookup param_name d) as [[a|l]|] eqn:E;
      cbn [bind iterate]; try reflexivity.
    specialize (Hread _ _ E [] []). rewrite !app_nil_r in Hread.
    rewrite Hread. reflexivity. }
  rewrite Hscaled.
  destruct (scaled_series (lists st0) d param_name v) as [[ys|]|e];
    cbn [snd]; [| |reflexivity].
  - erewrite calculate_fmip_resolve; [reflexivity| apply temp_lookup ..|].
    cbn [dicts lists]. rewrite !read_obj_app_last.
    apply same_scenario_setitem.
    + intros k l Hk. apply (Hread k l Hk).
    + simpl. rewrite !read_obj_app_last. reflexivity.
  - erewrite calculate_fmip_resolve; [reflexivity| apply temp_lookup ..|].
    cbn [dicts lists]. rewrite !read_obj_app_last.
    apply same_scenario_setitem.
    + intros k l Hk. specialize (Hread k l Hk [] []).
      rewrite !app_nil_r in Hread. exact Hread.
    + reflexivity.
Qed.

Lemma extends_trans st1 st2 st3 :
  extends st1 st2 -> extends st2 st3 -> extends st1 st3.
Proof.
  intros [(a & Ha) (b & Hb)] [(a' & Ha') (b' & Hb')]. split.
  - exists (a ++ a')%list. rewrite Ha', Ha, app_assoc. reflexivity.
  - exists (b ++ b')%list. rewrite Hb', Hb, app_assoc. reflexivity.
Qed.

(** One step of the sweep: the row is appended or the point skipped; no
    exception leaves the step. *)
Lemma fmip_sweep_step_run param_name results v st :
  exists st1,
    sweep_step fmt base_params base_scenario param_name results v st
    = (st1,
       match snd (sweep_point fmt base_params base_scenario param_name v st) with
       | Ok r => Ok (results ++ [r])%list
       | Err _ => Ok results
       end)
    /\ extends st st1.
Proof.
  unfold sweep_step, try_except, mbind at 1.
  assert (Hext := sweep_point_extends param_name v st).
  destruct (sweep_point fmt base_params base_scenario param_name v st)
    as [st1 [r|e]]; cbn [fst snd] in *.
  - exists st1. split; [reflexivity|exact Hext].
  - unfold mbind, print, ret. eexists. split; [reflexivity|].
    destruct Hext as [Hd Hl]. split; cbn [dicts lists]; assumption.
Qed.

Lemma fmip_inner_loop_frame param_name values :
  forall results st,
  extends st (fst (for_each values
                     (sweep_step fmt base_params base_scenario param_name)
                     results st)).
Proof.
  induction values as [|v values IH]; intros results st.
  - apply extends_refl.
  - cbn [for_each]. unfold mbind at 1.
    destruct (fmip_sweep_step_run param_name results v st) as (st1 & -> & Hext).
    destruct (snd _); eapply extends_trans; try exact Hext; apply IH.
Qed.

Lemma fmip_sweep_frame parameter_variations :
  forall results st,
  extends st (fst (for_each parameter_variations
                     (fun results '(param_name, values) =>
                        for_each values
                          (sweep_step fmt base_params base_scenario param_name)
                          results)
                     results st)).
Proof.
  induction parameter_variations as [|[p values] rest IH]; intros results st.
  - apply extends_refl.
  - cbn [for_each]. unfold mbind at 1.
    assert (Hext := fmip_inner_loop_frame p values results st).
    destruct (for_each values _ results st) as [st1 [acc|e]]; cbn [fst] in *.
    + eapply extends_trans; [exact Hext|apply IH].
    + exact Hext.
Qed.

Let rows_at (param_name : string) (v : atom) : list row :=
  match snd (sweep_point fmt base_params base_scenario param_name v st0) with
  | Ok r => [r]
  | Err _ => []
  end.

Lemma fmip_inner_loop_rows param_name values :
  forall results st,
  extends st0 st ->
  exists st',
    for_each values (sweep_step fmt base_params base_scenario param_name) results st
    = (st', Ok (results ++ flat_map (rows_at param_name) values)%list).
Proof.
  induction values as [|v values IH]; intros results st Hext.
  - exists st. simpl. rewrite app_nil_r. reflexivity.
  - cbn [for_each flat_map]. unfold mbind at 1.
    destruct (fmip_sweep_step_run param_name results v st) as (st1 & -> & Hext1).
    rewrite (sweep_point_result_extends param_name v st Hext).
    assert (Hext01 : extends st0 st1) by (eapply extends_trans; eassumption).
    unfold rows_at at 1.
    destruct (snd (sweep_point fmt base_params base_scenario param_name v st0))
      as [r|e].
    + destruct (IH (results ++ [r])%list st1 Hext01) as (st' & ->).
      exists st'. rewrite <- app_assoc. reflexivity.
    + destruct (IH results st1 Hext01) as (st' & ->).
      exists st'. reflexivity.
Qed.

Lemma fmip_sweep_rows parameter_variations :
  forall results st,
  extends st0 st ->
  exists st',
    for_each parameter_variations
      (fun results '(param_name, values) =>
         for_each values (sweep_step fmt base_params base_scenario param_name)
           results)
      results st
    = (st', Ok (results
                ++ fmip_rows fmt st0 base_params base_scenario parameter_variations)%list).
Proof.
  induction parameter_variations as [|[p values] rest IH]; intros results st Hext.
  - exists st. simpl. rewrite app_nil_r. reflexivity.
  - cbn [for_each]. unfold mbind at 1.
    assert (Hfr := fmip_inner_loop_frame p values results st).
    destruct (fmip_inner_loop_rows p values results st Hext) as (st1 & Hrun).
    rewrite Hrun in Hfr |- *. cbn [fst] in Hfr.
    assert (Hext1 : extends st0 st1) by (eapply extends_trans; eassumption).
    destruct (IH (results ++ flat_map (rows_at p) values)%list st1 Hext1)
      as (st' & ->).
    exists st'. unfold fmip_rows. cbn [flat_map]. rewrite <- app_assoc.
    reflexivity.
Qed.

End FMIPSweep.

(** ** The sweeps as a whole *)

Lemma firstn_app_exact {O} (l ext : list O) :
  firstn (List.length l) (l ++ ext) = l.
Proof.
  induction l as [|x l IH]; simpl; [reflexivity|]. rewrite IH. reflexivity.
Qed.

(** C9. Both sweeps leave every object that exists before the call as it
    is -- the base mapping and, for FMIP, the cash-flow lists of the base
    scenario among them: the overrides are written to copies, and a
    scaled series is a new list.  This holds whether the sweep returns or
    raises. *)
Theorem sensitivity_analysis_frame :
  (forall (base_params : loc) (parameter_ranges : dict (list atom))
          (w : LROMACalculator.world),
     let w' := fst (LROMACalculator.sensitivity_analysis base_params
                      parameter_ranges w) in
     firstn (List.length (LROMACalculator.dicts w)) (LROMACalculator.dicts w')
     = LROMACalculator.dicts w)
  /\ (forall (fmt : atom -> string) (parameters : dict loc) (base_scenario : string)
             (parameter_variations : dict (list atom)) (st : FMIPCalculator.store),
        let st' := fst (FMIPCalculator.sensitivity_analysis fmt parameters
                          base_scenario parameter_variations st) in
        firstn (List.length (FMIPCalculator.dicts st)) (FMIPCalculator.dicts st')
        = FMIPCalculator.dicts st
        /\ firstn (List.length (FMIPCalculator.lists st)) (FMIPCalculator.lists st')
           = FMIPCalculator.lists st).
Proof.
  split.
  - intros base_params parameter_ranges w w'. subst w'.
    unfold LROMACalculator.sensitivity_analysis.
    destruct (sweep_frame base_params parameter_ranges [] w) as (ext & ->).
    apply firstn_app_exact.
  - intros fmt parameters base_scenario parameter_variations st st'. subst st'.
    unfold FMIPCalculator.sensitivity_analysis, mbind, lift.
    destruct (getitem parameters base_scenario) as [base_params|e]; cbn [fst].
    + destruct (fmip_sweep_frame fmt base_params base_scenario
                  parameter_variations [] st) as [(e1 & ->) (e2 & ->)].
      split; apply firstn_app_exact.
    + rewrite !firstn_all. split; reflexivity.
Qed.

(** C7 as stated fails for the LROMA sweep: of three overrides of capex
    the second, which is not a number, is the only one whose computation
    fails, and the sweep raises [TypeError] instead of returning the two
    other rows. *)
Lemma lroma_sweep_aborts_on_type_error :
  (exists x, LROMACalculator.calculate_lroma (setitem fcev "capex" (AInt 4000000)) = Ok x)
  /\ LROMACalculator.calculate_lroma (setitem fcev "capex" ANone) = Err TypeError
  /\ (exists x, LROMACalculator.calculate_lroma (setitem fcev "capex" (AInt 5000000)) = Ok x)
  /\ snd (LROMACalculator.sensitivity_analysis 0%nat capex_sweep fcev_world)
     = Err TypeError.
Proof.
  split; [eexists; vm_compute; reflexivity|].
  split; [vm_compute; reflexivity|].
  split; [eexists; vm_compute; reflexivity|].
  vm_compute. reflexivity.
Qed.

(** C7 (as amended). [FMIPCalculator.sensitivity_analysis], for a base
    scenario that exists, returns the rows of the overrides whose
    computation succeeds, in order, and omits every failing one whatever
    the failure.  [LROMACalculator.sensitivity_analysis] does the same
    when every failure is a missing key or a division by zero, the two
    exceptions it catches. *)
Theorem sensitivity_analysis_skips_failures :
  (forall (base_params : loc) (parameter_ranges : dict (list atom))
          (w : LROMACalculator.world),
     let base := read_obj [] (LROMACalculator.dicts w) base_params in
     (base_params < List.length (LROMACalculator.dicts w))%nat ->
     only_caught base parameter_ranges = true ->
     snd (LROMACalculator.sensitivity_analysis base_params parameter_ranges w)
     = Ok (lroma_rows base parameter_ranges))
  /\ (forall (fmt : atom -> string) (parameters : dict loc) (base_scenario : string)
             (parameter_variations : dict (list atom)) (st : FMIPCalculator.store)
             (base_params : loc),
        getitem parameters base_scenario = Ok base_params ->
        valid_scenario st base_params = true ->
        snd (FMIPCalculator.sensitivity_analysis fmt parameters base_scenario
               parameter_variations st)
        = Ok (fmip_rows fmt st base_params base_scenario parameter_variations)).
Proof.
  split.
  - intros base_params parameter_ranges w base Hvalid Hcaught.
    unfold LROMACalculator.sensitivity_analysis.
    destruct (sweep_rows base_params base parameter_ranges [] w Hvalid eq_refl Hcaught)
      as (w' & ->).
    reflexivity.
  - intros fmt parameters base_scenario parameter_variations st base_params
      Hbase Hvalid.
    unfold FMIPCalculator.sensitivity_analysis, mbind at 1, lift.
    rewrite Hbase.
    destruct (fmip_sweep_rows fmt base_params base_scenario st Hvalid
                parameter_variations [] st (extends_refl st)) as (st' & ->).
    reflexivity.
Qed.

Lemma sensitivity_analysis_skips_failures_witness :
  (snd (LROMACalculator.sensitivity_analysis 0%nat rate_sweep fcev_world)
   = Ok (lroma_rows fcev rate_sweep)
   /\ List.length (lroma_rows fcev rate_sweep) = 2%nat)
  /\ (snd (FMIPCalculator.sensitivity_analysis (fun _ => "x"%string)
             [("base_case"%string, 0%nat)] "base_case" fiscal_sweep base_case)
      = Ok (fmip_rows (fun _ => "x"%string) base_case 0%nat "base_case" fiscal_sweep)
      /\ List.length (fmip_rows (fun _ => "x"%string) base_case 0%nat "base_case"
                        fiscal_sweep) = 3%nat).
Proof.
  split; split.
  - apply (proj1 sensitivity_analysis_skips_failures 0%nat rate_sweep fcev_world).
    + simpl. lia.
    + vm_compute. reflexivity.
  - vm_compute. reflexivity.
  - apply (proj2 sensitivity_analysis_skips_failures (fun _ => "x"%string)
             [("base_case"%string, 0%nat)] "base_case"%string fiscal_sweep
             base_case 0%nat).
    + reflexivity.
    + vm_compute. reflexivity.
  - vm_compute. reflexivity.
Defined.

(** * Further properties of the code *)

(** ** Errors of [calculate_lroma] *)

(** X1. When the mapping lacks one of the six required keys,
    [calculate_lroma] raises [KeyError] for the first missing key in the
    order capex, annual_distance, tco_per_km, freight_rate, discount_rate,
    vehicle_life, whatever the other entries hold. *)
Theorem calculate_lroma_missing_key (vehicle_params : dict atom) (k : string) :
  find (fun key => negb (contains key vehicle_params)) required_keys = Some k ->
  LROMACalculator.calculate_lroma vehicle_params = Err (KeyError k).
Proof.
  unfold required_keys, LROMACalculator.calculate_lroma, contains, getitem.
  cbn [find].
  repeat match goal with
         | |- context [lookup ?key vehicle_params] =>
             destruct (lookup key vehicle_params);
             cbn [negb bind];
             [| intros H; inversion H; reflexivity]
         end.
  discriminate.
Qed.

Lemma calculate_lroma_missing_key_witness :
  LROMACalculator.calculate_lroma fcev_incomplete = Err (KeyError "freight_rate").
Proof.
  apply (calculate_lroma_missing_key fcev_incomplete "freight_rate").
  reflexivity.
Defined.

Lemma discounted_rate_minus_one x r t :
  numeric x = true -> numeric r = true -> Qof r == -1 -> (1 <= t)%Z ->
  discounted x r t = Err ZeroDivisionError.
Proof.
  intros Hx Hr Hm Ht. unfold discounted.
  destruct (py_add_value (AInt 1) r eq_refl Hr) as (b & -> & Hb & Vb).
  cbn [bind]. destruct (py_pow_value b t ltac:(lia) Hb) as (p & -> & Hp & Vp).
  cbn [bind]. change (Qof (AInt 1)) with 1 in Vb.
  assert (Hz : Qof p == 0).
  { rewrite Vp, Vb, Hm. setoid_replace (1 + -1) with 0 by lra.
    apply Qpower_0. lia. }
  unfold py_truediv. apply Qeq_bool_iff in Hz. rewrite Hz.
  destruct x, p; try discriminate; reflexivity.
Qed.

Lemma discounted_year_zero x r :
  numeric x = true -> numeric r = true ->
  exists v, discounted x r 0 = Ok v /\ numeric v = true.
Proof.
  intros Hx Hr. unfold discounted.
  destruct x, r; try discriminate; cbn; eexists; split; reflexivity.
Qed.

(** X2. At a discount rate of -1 the guard on pv_distance does not help:
    with a vehicle life of at least one year [calculate_lroma] raises
    [ZeroDivisionError], from the first discounted profit; with a life of
    zero or less it returns the int 0. *)
Theorem calculate_lroma_rate_minus_one
    (vehicle_params : dict atom)
    (capex annual_distance tco_per_km freight_rate discount_rate : atom)
    (vehicle_life : Z) :
  vehicle_parameters vehicle_params capex annual_distance tco_per_km
    freight_rate discount_rate vehicle_life ->
  Qof discount_rate == -1 ->
  LROMACalculator.calculate_lroma vehicle_params
  = if (1 <=? vehicle_life)%Z then Err ZeroDivisionError else Ok (AInt 0).
Proof.
  intros (H1 & H2 & H3 & H4 & H5 & H6 & N1 & N2 & N3 & N4 & N5) Hm.
  unfold LROMACalculator.calculate_lroma.
  rewrite H1, H2, H3, H4, H5, H6. cbn [bind].
  destruct (py_sub_value freight_rate tco_per_km N4 N3) as (margin & -> & Nm & _).
  cbn [bind].
  destruct (py_mul_value annual_distance margin N2 Nm) as (ap & -> & Nap & _).
  cbn [bind].
  destruct (py_neg_value capex N1) as (outlay & -> & No & _).
  cbn [bind py_list_repeat].
  unfold LROMACalculator.inline_npv, py_sum. cbn [enumerate sum_from].
  destruct (discounted_year_zero outlay discount_rate No N5) as (v0 & -> & Nv0).
  cbn [bind].
  destruct (py_add_value (AInt 0) v0 eq_refl Nv0) as (acc & -> & Nacc & _).
  cbn [bind].
  destruct (Z.leb_spec 1 vehicle_life) as [Hlife|Hlife].
  - destruct (Z.to_nat vehicle_life) as [|n] eqn:E; [lia|].
    cbn [repeat enumerate sum_from].
    rewrite (discounted_rate_minus_one ap discount_rate (0 + 1)); auto; lia.
  - replace (Z.to_nat vehicle_life) with O by lia.
    cbn [repeat enumerate sum_from bind py_add arith2 py_range].
    unfold range. replace (Z.to_nat (vehicle_life + 1 - 1)) with O by lia.
    reflexivity.
Qed.

Lemma calculate_lroma_rate_minus_one_witness :
  LROMACalculator.calculate_lroma (setitem fcev "discount_rate" (AInt (-1)))
  = Err ZeroDivisionError.
Proof.
  apply (calculate_lroma_rate_minus_one
           (setitem fcev "discount_rate" (AInt (-1)))
           (AInt 4800000) (AInt 100000) (AFloat (1320 # 100))
           (AFloat (2500 # 100)) (AInt (-1)) 8).
  - repeat split; reflexivity.
  - reflexivity.
Defined.

(** X3. When the six keys are present but one of capex, annual_distance,
    tco_per_km, freight_rate, discount_rate is not a number, or
    vehicle_life is not an int (the float 8.0 included),
    [calculate_lroma] raises [TypeError]: no value is returned and no
    division is reached. *)
Theorem calculate_lroma_type_error
    (vehicle_params : dict atom)
    (capex annual_distance tco_per_km freight_rate discount_rate vehicle_life : atom) :
  getitem vehicle_params "capex" = Ok capex ->
  getitem vehicle_params "annual_distance" = Ok annual_distance ->
  getitem vehicle_params "tco_per_km" = Ok tco_per_km ->
  getitem vehicle_params "freight_rate" = Ok freight_rate ->
  getitem vehicle_params "discount_rate" = Ok discount_rate ->
  getitem vehicle_params "vehicle_life" = Ok vehicle_life ->
  (numeric capex && numeric annual_distance && numeric tco_per_km
   && numeric freight_rate && numeric discount_rate && is_int vehicle_life)%bool
  = false ->
  LROMACalculator.calculate_lroma vehicle_params = Err TypeError.
Proof.
  intros H1 H2 H3 H4 H5 H6 Hbad.
  unfold LROMACalculator.calculate_lroma.
  rewrite H1, H2, H3, H4, H5, H6. cbn [bind].
  destruct freight_rate, tco_per_km; cbn [py_sub arith2 bind]; try reflexivity;
    (destruct annual_distance; cbn [py_mul arith2 bind Qof]; try reflexivity);
    (destruct capex; cbn [py_neg bind]; try reflexivity);
    (destruct vehicle_life; cbn [py_list_repeat bind]; try reflexivity);
    (destruct discount_rate; try discriminate Hbad);
    unfold LROMACalculator.inline_npv, py_sum;
    cbn [enumerate sum_from discounted py_add arith2 bind]; reflexivity.
Qed.

Lemma calculate_lroma_type_error_witness :
  LROMACalculator.calculate_lroma fcev_float_life = Err TypeError.
Proof.
  apply (calculate_lroma_type_error fcev_float_life (AInt 4800000) (AInt 100000)
           (AFloat (1320 # 100)) (AFloat (2500 # 100)) (AFloat (8 # 100))
           (AFloat (8 # 1))); reflexivity.
Defined.

(** ** The levelized return in closed form *)

Lemma pv_distance_positive ad r n :
  0 < ad -> -1 < r -> (1 <= n)%Z -> 0 < spec_pv_distance ad r n.
Proof.
  intros Hd Hr Hn. rewrite spec_pv_distance_unfold.
  apply Sigma_from_pos; [lia|]. intros t Ht.
  apply Qlt_shift_div_l; [apply Qpower_0_lt; lra | lra].
Qed.

(** With a positive distance, a rate above -1 and a life of at least one
    year, the levelized return is the margin per km less capex per
    discounted km. *)
Lemma calculate_lroma_closed
    (vehicle_params : dict atom)
    (capex annual_distance tco_per_km freight_rate discount_rate : atom)
    (vehicle_life : Z) :
  vehicle_parameters vehicle_params capex annual_distance tco_per_km
    freight_rate discount_rate vehicle_life ->
  0 < Qof annual_distance -> -1 < Qof discount_rate -> (1 <= vehicle_life)%Z ->
  exists v, LROMACalculator.calculate_lroma vehicle_params = Ok v
    /\ numeric v = true
    /\ Qof v == (Qof freight_rate - Qof tco_per_km)
                - Qof capex
                  / spec_pv_distance (Qof annual_distance) (Qof discount_rate)
                      vehicle_life.
Proof.
  intros Hp Hd Hr Hn.
  assert (Hne : ~ Qof discount_rate == -1) by lra.
  destruct (calculate_lroma_steps _ _ _ _ _ _ _ Hp Hne)
    as (n & d & Nn & Nd & Vn & Vd & Hrun).
  assert (Hpos := pv_distance_positive _ _ _ Hd Hr Hn).
  rewrite spec_pv_distance_unfold in Hpos |- *.
  set (P := Sigma_from 1 (Z.to_nat vehicle_life)
              (fun t => Qof annual_distance / (1 + Qof discount_rate) ^ t)) in *.
  assert (Hprofit :
    Sigma_from 1 (Z.to_nat vehicle_life)
      (fun t => Qof annual_distance * (Qof freight_rate - Qof tco_per_km)
                / (1 + Qof discount_rate) ^ t)
    == (Qof freight_rate - Qof tco_per_km) * P).
  { unfold P. rewrite <- Sigma_from_scale. apply Sigma_from_ext. intros t _.
    unfold Qdiv. ring. }
  rewrite Hprofit in Vn.
  rewrite Hrun. unfold py_ne0.
  destruct (Qeq_bool (Qof d) 0) eqn:E.
  - apply Qeq_bool_iff in E. lra.
  - exists (AFloat (Qof n / Qof d)).
    split; [reflexivity | split; [reflexivity|]]. cbn [Qof].
    rewrite Vn, Vd. field. lra.
Qed.

(** X4. For numeric parameters with a positive annual distance, a
    discount rate above -1 and a life of at least one year,
    [calculate_lroma] returns (freight_rate - tco_per_km) - capex /
    pv_distance: the margin per km less capex per discounted km.  With
    freight_rate equal to tco_per_km and a positive capex the value is
    strictly negative, not zero. *)
Theorem calculate_lroma_closed_form
    (vehicle_params : dict atom)
    (capex annual_distance tco_per_km freight_rate discount_rate : atom)
    (vehicle_life : Z) :
  vehicle_parameters vehicle_params capex annual_distance tco_per_km
    freight_rate discount_rate vehicle_life ->
  0 < Qof annual_distance -> -1 < Qof discount_rate -> (1 <= vehicle_life)%Z ->
  exists v, LROMACalculator.calculate_lroma vehicle_params = Ok v
    /\ Qof v == (Qof freight_rate - Qof tco_per_km)
                - Qof capex
                  / spec_pv_distance (Qof annual_distance) (Qof discount_rate)
                      vehicle_life
    /\ (Qof freight_rate == Qof tco_per_km -> 0 < Qof capex -> Qof v < 0).
Proof.
  intros Hp Hd Hr Hn.
  destruct (calculate_lroma_closed _ _ _ _ _ _ _ Hp Hd Hr Hn) as (v & Hv & _ & Vv).
  exists v. split; [exact Hv|]. split; [exact Vv|].
  intros Heq Hcapex. rewrite Vv, Heq.
  assert (Hpos := pv_distance_positive _ _ _ Hd Hr Hn).
  assert (0 < Qof capex
              / spec_pv_distance (Qof annual_distance) (Qof discount_rate)
                  vehicle_life).
  { apply Qlt_shift_div_l; [exact Hpos | lra]. }
  lra.
Qed.

Lemma calculate_lroma_closed_form_witness :
  exists v, LROMACalculator.calculate_lroma fcev = Ok v
    /\ Qof v == (Qof (AFloat (2500 # 100)) - Qof (AFloat (1320 # 100)))
                - Qof (AInt 4800000)
                  / spec_pv_distance (Qof (AInt 100000)) (Qof (AFloat (8 # 100))) 8
    /\ (Qof (AFloat (2500 # 100)) == Qof (AFloat (1320 # 100)) ->
        0 < Qof (AInt 4800000) -> Qof v < 0).
Proof.
  apply (calculate_lroma_closed_form fcev (AInt 4800000) (AInt 100000)
           (AFloat (1320 # 100)) (AFloat (2500 # 100)) (AFloat (8 # 100)) 8).
  - repeat split; reflexivity.
  - reflexivity.
  - reflexivity.
  - lia.
Defined.

(** ** [calculate_breakeven] *)

Lemma getitem_setitem_same {V} (d : dict V) k x :
  getitem (setitem d k x) k = Ok x.
Proof.
  unfold getitem. rewrite lookup_setitem, String.eqb_refl. reflexivity.
Qed.

Lemma getitem_setitem_other {V} (d : dict V) k x k' :
  k <> k' -> getitem (setitem d k x) k' = getitem d k'.
Proof.
  intros Hne. unfold getitem. rewrite lookup_setitem.
  destruct (String.eqb_spec k k'); [contradiction|reflexivity].
Qed.

Lemma py_lt_value a b :
  numeric a = true -> numeric b = true ->
  exists c, py_lt a b = Ok c /\ (c = true <-> Qof a < Qof b).
Proof.
  intros Ha Hb.
  exists (match Qof a ?= Qof b with Lt => true | _ => false end). split.
  - destruct a, b; try discriminate; reflexivity.
  - rewrite (Qlt_alt (Qof a) (Qof b)).
    destruct (Qof a ?= Qof b); split; intros H; congruence.
Qed.

(** X5. For numeric parameters with a positive annual distance, a
    discount rate above -1 and a life of at least one year, and a numeric
    target: when the current LROMA is at or above the target,
    [calculate_breakeven] returns the empty mapping; when it is below, it
    returns the one entry freight_rate = current + 2 * (target - LROMA),
    which is above the current rate, and [calculate_lroma] at that freight
    rate returns 2 * target - LROMA: the estimate overshoots the target by
    as much as the current value falls short of it. *)
Theorem calculate_breakeven_overshoots
    (vehicle_params : dict atom)
    (capex annual_distance tco_per_km freight_rate discount_rate : atom)
    (vehicle_life : Z) (target_lroma : atom) :
  vehicle_parameters vehicle_params capex annual_distance tco_per_km
    freight_rate discount_rate vehicle_life ->
  0 < Qof annual_distance -> -1 < Qof discount_rate -> (1 <= vehicle_life)%Z ->
  numeric target_lroma = true ->
  exists base_lroma,
    LROMACalculator.calculate_lroma vehicle_params = Ok base_lroma
    /\ (~ Qof base_lroma < Qof target_lroma ->
        LROMACalculator.calculate_breakeven vehicle_params target_lroma = Ok [])
    /\ (Qof base_lroma < Qof target_lroma ->
        exists breakeven v,
          LROMACalculator.calculate_breakeven vehicle_params target_lroma
          = Ok [("freight_rate"%string, breakeven)]
          /\ Qof breakeven
             == Qof freight_rate + 2 * (Qof target_lroma - Qof base_lroma)
          /\ Qof freight_rate < Qof breakeven
          /\ LROMACalculator.calculate_lroma
               (setitem vehicle_params "freight_rate" breakeven) = Ok v
          /\ Qof v == 2 * Qof target_lroma - Qof base_lroma).
Proof.
  intros Hp Hd Hr Hn Ht.
  destruct (calculate_lroma_closed _ _ _ _ _ _ _ Hp Hd Hr Hn)
    as (base & Hbase & Nbase & Vbase).
  exists base. split; [exact Hbase|].
  unfold LROMACalculator.calculate_breakeven. rewrite Hbase. cbn [bind].
  destruct (py_lt_value base target_lroma Nbase Ht) as (below & -> & Hbelow).
  cbn [bind]. split.
  - intros Hnot. destruct below; [|reflexivity].
    exfalso. apply Hnot. apply Hbelow. reflexivity.
  - intros Hlt. apply Hbelow in Hlt. subst below.
    destruct Hp as (H1 & H2 & H3 & H4 & H5 & H6 & N1 & N2 & N3 & N4 & N5).
    rewrite H4. cbn [bind].
    destruct (py_sub_value target_lroma base Ht Nbase) as (gap & -> & Ng & Vg).
    cbn [bind].
    destruct (py_mul_value gap (AInt 2) Ng eq_refl) as (inc & -> & Ni & Vi).
    cbn [bind].
    destruct (py_add_value freight_rate inc N4 Ni) as (be & -> & Nbe & Vbe).
    cbn [bind setitem].
    assert (Ebe : Qof be
                  == Qof freight_rate + 2 * (Qof target_lroma - Qof base)).
    { rewrite Vbe, Vi, Vg. change (Qof (AInt 2)) with 2. ring. }
    assert (Hlt : Qof base < Qof target_lroma) by (apply Hbelow; reflexivity).
    assert (Hp' : vehicle_parameters (setitem vehicle_params "freight_rate" be)
                    capex annual_distance tco_per_km be discount_rate vehicle_life).
    { repeat split; auto;
        try (rewrite getitem_setitem_other by discriminate; assumption).
      apply getitem_setitem_same. }
    destruct (calculate_lroma_closed _ _ _ _ _ _ _ Hp' Hd Hr Hn)
      as (v & Hv & _ & Vv).
    exists be, v. split; [reflexivity|]. split; [exact Ebe|].
    split; [lra|]. split; [exact Hv|].
    rewrite Vv, Ebe, Vbase. ring.
Qed.

Lemma calculate_breakeven_overshoots_witness :
  exists breakeven v,
    LROMACalculator.calculate_breakeven fcev_low_rate (AInt 3)
    = Ok [("freight_rate"%string, breakeven)]
    /\ Qof (AFloat (1500 # 100)) < Qof breakeven
    /\ LROMACalculator.calculate_lroma
         (setitem fcev_low_rate "freight_rate" breakeven) = Ok v
    /\ 3 < Qof v.
Proof.
  destruct (calculate_breakeven_overshoots fcev_low_rate (AInt 4800000)
              (AInt 100000) (AFloat (1320 # 100)) (AFloat (1500 # 100))
              (AFloat (8 # 100)) 8 (AInt 3))
    as (base & Hbase & _ & Hbelow).
  - repeat split; reflexivity.
  - reflexivity.
  - reflexivity.
  - lia.
  - reflexivity.
  - vm_compute in Hbase. inversion Hbase; subst base. clear Hbase.
    destruct Hbelow as (be & v & H1 & H2 & H3 & H4 & H5); [reflexivity|].
    exists be, v. split; [exact H1|]. split; [exact H3|]. split; [exact H4|].
    rewrite H5. reflexivity.
Defined.

(** ** Errors of [calculate_fmip] *)

Lemma arith2_error fz fq a b e : arith2 fz fq a b = Err e -> not_key_error e.
Proof.
  destruct a, b; simpl; intros H; inversion H; exact I.
Qed.

Lemma py_truediv_error a b e : py_truediv a b = Err e -> not_key_error e.
Proof.
  unfold py_truediv. destruct a, b; try destruct (Qeq_bool _ 0);
    intros H; inversion H; exact I.
Qed.

Lemma discounted_error x r t e : discounted x r t = Err e -> not_key_error e.
Proof.
  unfold discounted. destruct (py_add (AInt 1) r) as [b|e1] eqn:E1; cbn [bind].
  - destruct (py_pow b t) as [p|e2] eqn:E2; cbn [bind].
    + apply py_truediv_error.
    + intros H; inversion H; subst. destruct b; inversion E2. exact I.
  - intros H; inversion H; subst. eapply arith2_error; exact E1.
Qed.

Lemma sum_from_error {X} (term : X -> result atom) xs :
  (forall x e, term x = Err e -> not_key_error e) ->
  forall acc e, sum_from term xs acc = Err e -> not_key_error e.
Proof.
  intros Hterm. induction xs as [|x xs IH]; intros acc e; simpl.
  - discriminate.
  - destruct (term x) as [v|e1] eqn:E1; cbn [bind].
    + destruct (py_add acc v) as [acc'|e2] eqn:E2; cbn [bind].
      * apply IH.
      * intros H; inversion H; subst. eapply arith2_error; exact E2.
    + intros H; inversion H; subst. eapply Hterm; exact E1.
Qed.

Lemma present_value_error lists cash_flows discount_rate e :
  FMIPCalculator.calculate_present_value lists cash_flows discount_rate = Err e ->
  not_key_error e.
Proof.
  unfold FMIPCalculator.calculate_present_value.
  destruct (negb _); [discriminate|].
  destruct cash_flows as [a|l]; cbn [FMIPCalculator.iterate bind].
  - intros H; inversion H; exact I.
  - apply sum_from_error. intros [t cf] e'.
    destruct discount_rate as [r|l']; cbn [FMIPCalculator.scalar bind].
    + apply discounted_error.
    + intros H; inversion H; exact I.
Qed.

Lemma occurs_in_missing_message scenario key :
  occurs_in scenario (FMIPCalculator.missing_message scenario key)
  /\ occurs_in (py_repr key) (FMIPCalculator.missing_message scenario key).
Proof.
  unfold FMIPCalculator.missing_message. split.
  - eexists. eexists. reflexivity.
  - rewrite <- string_app_assoc, <- string_app_assoc.
    exists (("Missing required parameter in scenario '" ++ scenario) ++ "': ")%string,
           ""%string.
    rewrite string_app_nil_r. reflexivity.
Qed.

(** The outcomes of [calculate_fmip] on a scenario that exists: a result
    needs the four fields, and a [KeyError] reports a field that is
    missing. *)
Lemma calculate_fmip_cases st parameters scenario ref :
  getitem parameters scenario = Ok ref ->
  let scenario_params := read_obj [] (FMIPCalculator.dicts st) ref in
  match FMIPCalculator.calculate_fmip st parameters scenario with
  | Ok _ => forall k, In k fmip_fields -> contains k scenario_params = true
  | Err (KeyError arg) =>
      exists k, In k fmip_fields /\ contains k scenario_params = false
                /\ arg = FMIPCalculator.missing_message scenario k
  | Err _ => True
  end.
Proof.
  intros Href scenario_params.
  unfold FMIPCalculator.calculate_fmip.
  rewrite (getitem_contains _ _ _ Href), Href. cbn [negb bind].
  fold scenario_params. unfold getitem, contains, fmip_fields.
  destruct (lookup "public_investment_cashflows" scenario_params) as [cf1|] eqn:L1;
    cbn [bind FMIPCalculator.reraise_key_error];
    [| exists "public_investment_cashflows"%string; rewrite L1; simpl; auto].
  destruct (lookup "social_discount_rate" scenario_params) as [r|] eqn:Lr;
    cbn [bind FMIPCalculator.reraise_key_error];
    [| exists "social_discount_rate"%string; rewrite Lr; simpl; auto].
  destruct (FMIPCalculator.calculate_present_value _ cf1 r) as [pv1|e1] eqn:P1;
    cbn [bind FMIPCalculator.reraise_key_error];
    [| apply present_value_error in P1; destruct e1; [contradiction|exact I..]].
  destruct (lookup "tax_revenue_cashflows" scenario_params) as [cf2|] eqn:L2;
    cbn [bind FMIPCalculator.reraise_key_error];
    [| exists "tax_revenue_cashflows"%string; rewrite L2; simpl; auto].
  destruct (FMIPCalculator.calculate_present_value _ cf2 r) as [pv2|e2] eqn:P2;
    cbn [bind FMIPCalculator.reraise_key_error];
    [| apply present_value_error in P2; destruct e2; [contradiction|exact I..]].
  destruct (lookup "fiscal_avoidance_cashflows" scenario_params) as [cf3|] eqn:L3;
    cbn [bind FMIPCalculator.reraise_key_error];
    [| exists "fiscal_avoidance_cashflows"%string; rewrite L3; simpl; auto 6].
  destruct (FMIPCalculator.calculate_present_value _ cf3 r) as [pv3|e3] eqn:P3;
    cbn [bind FMIPCalculator.reraise_key_error];
    [| apply present_value_error in P3; destruct e3; [contradiction|exact I..]].
  destruct (py_add pv2 pv3) as [tot|e4] eqn:A.
  - assert (Hfields : forall k,
        In k ["public_investment_cashflows"; "social_discount_rate";
              "tax_revenue_cashflows"; "fiscal_avoidance_cashflows"]%string ->
        match lookup k scenario_params with Some _ => true | None => false end = true).
    { intros k [<-|[<-|[<-|[<-|[]]]]]; [rewrite L1|rewrite Lr|rewrite L2|rewrite L3];
        reflexivity. }
    destruct (py_eq0 pv1); cbn [bind]; [exact Hfields|].
    destruct (py_truediv tot pv1) as [q|e5] eqn:D; cbn [bind]; [exact Hfields|].
    apply py_truediv_error in D. destruct e5; [contradiction|exact I..].
  - apply arith2_error in A.
    destruct (py_eq0 pv1); cbn [bind]; destruct e4; try contradiction; exact I.
Qed.

(** X6. For a scenario that exists but lacks one of its four fields,
    [calculate_fmip] returns no result; and whenever it raises [KeyError]
    for an existing scenario, the message is the missing-parameter message
    for a field that is indeed missing, holding the scenario name and the
    repr of that field. *)
Theorem calculate_fmip_missing_field
    (st : FMIPCalculator.store) (parameters : dict loc) (scenario : string)
    (ref : loc) :
  getitem parameters scenario = Ok ref ->
  let scenario_params := read_obj [] (FMIPCalculator.dicts st) ref in
  ((exists k, In k fmip_fields /\ contains k scenario_params = false) ->
   exists e, FMIPCalculator.calculate_fmip st parameters scenario = Err e)
  /\ (forall arg,
        FMIPCalculator.calculate_fmip st parameters scenario = Err (KeyError arg) ->
        exists k, In k fmip_fields /\ contains k scenario_params = false
                  /\ arg = FMIPCalculator.missing_message scenario k
                  /\ occurs_in scenario arg /\ occurs_in (py_repr k) arg).
Proof.
  intros Href scenario_params.
  assert (Hcases := calculate_fmip_cases st parameters scenario ref Href).
  cbn zeta in Hcases. fold scenario_params in Hcases.
  destruct (FMIPCalculator.calculate_fmip st parameters scenario) as [res|e].
  - split.
    + intros (k & Hin & Hmiss). rewrite (Hcases k Hin) in Hmiss. discriminate.
    + intros arg H. discriminate.
  - split.
    + intros _. exists e. reflexivity.
    + intros arg H. inversion H; subst e.
      destruct Hcases as (k & Hin & Hmiss & ->).
      exists k. repeat split; auto; apply occurs_in_missing_message.
Qed.

Lemma calculate_fmip_missing_field_witness :
  FMIPCalculator.calculate_fmip no_avoidance [("base_case"%string, 0%nat)] "base_case"
  = Err (KeyError
           (FMIPCalculator.missing_message "base_case" "fiscal_avoidance_cashflows")).
Proof.
  destruct (calculate_fmip_missing_field no_avoidance
              [("base_case"%string, 0%nat)] "base_case"%string 0%nat eq_refl)
    as [Hraises _].
  destruct Hraises as (e & He).
  - exists "fiscal_avoidance_cashflows"%string. split; [simpl; auto 6|reflexivity].
  - rewrite He. vm_compute in He. inversion He. reflexivity.
Defined.

Lemma present_value_rate_minus_one lists l r x xs :
  read_obj [] lists l = x :: xs ->
  numeric x = true -> numeric r = true -> Qof r == -1 ->
  FMIPCalculator.calculate_present_value lists
    (FMIPCalculator.VList l) (FMIPCalculator.VAtom r)
  = Err ZeroDivisionError.
Proof.
  intros Hl Hx Hr Hm.
  rewrite calculate_present_value_nonempty by (rewrite Hl; discriminate).
  rewrite Hl. unfold py_sum. cbn [enumerate sum_from].
  rewrite (discounted_rate_minus_one x r 1 Hx Hr Hm) by lia. reflexivity.
Qed.

(** X7. The zero-division protection of [calculate_fmip] covers the ratio
    only: for a scenario whose investment series is not empty and starts
    with a number, a discount rate of -1 makes
    [calculate_present_value], and with it [calculate_fmip], raise
    [ZeroDivisionError]. *)
Theorem calculate_fmip_rate_minus_one
    (st : FMIPCalculator.store) (parameters : dict loc) (scenario : string)
    (ref l : loc) (r x : atom) (xs : list atom) :
  let scenario_params := read_obj [] (FMIPCalculator.dicts st) ref in
  getitem parameters scenario = Ok ref ->
  getitem scenario_params "public_investment_cashflows" = Ok (FMIPCalculator.VList l) ->
  getitem scenario_params "social_discount_rate" = Ok (FMIPCalculator.VAtom r) ->
  read_obj [] (FMIPCalculator.lists st) l = x :: xs ->
  numeric x = true -> numeric r = true -> Qof r == -1 ->
  FMIPCalculator.calculate_present_value (FMIPCalculator.lists st)
    (FMIPCalculator.VList l) (FMIPCalculator.VAtom r) = Err ZeroDivisionError
  /\ FMIPCalculator.calculate_fmip st parameters scenario = Err ZeroDivisionError.
Proof.
  intros scenario_params Href H1 Hr Hl Hx Hnr Hm.
  assert (Hpv := present_value_rate_minus_one _ _ _ _ _ Hl Hx Hnr Hm).
  split; [exact Hpv|].
  unfold FMIPCalculator.calculate_fmip.
  rewrite (getitem_contains _ _ _ Href), Href. cbn [negb bind].
  fold scenario_params. rewrite H1, Hr. cbn [bind]. rewrite Hpv. reflexivity.
Qed.

Lemma calculate_fmip_rate_minus_one_witness :
  FMIPCalculator.calculate_present_value (FMIPCalculator.lists rate_minus_one)
    (FMIPCalculator.VList 0%nat) (FMIPCalculator.VAtom (AInt (-1)))
  = Err ZeroDivisionError
  /\ FMIPCalculator.calculate_fmip rate_minus_one [("base_case"%string, 0%nat)]
       "base_case" = Err ZeroDivisionError.
Proof.
  apply (calculate_fmip_rate_minus_one rate_minus_one
           [("base_case"%string, 0%nat)] "base_case"%string 0%nat 0%nat
           (AInt (-1)) (AInt 100) []); reflexivity.
Defined.

(** ** Edge cases of [calculate_present_value] *)

(** X8. [calculate_present_value] looks at the discount rate only when
    there is a flow to discount: on an empty list, on [None] and on a zero
    it returns the float 0 whatever the discount rate is, a number or
    not; on a list that is not empty it raises [TypeError] when the
    discount rate is [None] or a list; and a number other than zero in
    place of the series raises [TypeError], as it cannot be iterated. *)
Theorem calculate_present_value_edges
    (lists : list (list atom)) (discount_rate : FMIPCalculator.val) :
  (forall l, read_obj [] lists l = [] ->
     FMIPCalculator.calculate_present_value lists (FMIPCalculator.VList l)
       discount_rate = Ok (AFloat 0))
  /\ (forall a, numeric a = false \/ Qof a == 0 ->
        FMIPCalculator.calculate_present_value lists (FMIPCalculator.VAtom a)
          discount_rate = Ok (AFloat 0))
  /\ (forall a, numeric a = true -> ~ Qof a == 0 ->
        FMIPCalculator.calculate_present_value lists (FMIPCalculator.VAtom a)
          discount_rate = Err TypeError)
  /\ (forall l, read_obj [] lists l <> [] ->
        discount_rate = FMIPCalculator.VAtom ANone
        \/ (exists l', discount_rate = FMIPCalculator.VList l') ->
        FMIPCalculator.calculate_present_value lists (FMIPCalculator.VList l)
          discount_rate = Err TypeError).
Proof.
  unfold FMIPCalculator.calculate_present_value, FMIPCalculator.truthy.
  split; [|split; [|split]].
  - intros l ->. reflexivity.
  - intros a [Ha|Ha].
    + rewrite Ha. reflexivity.
    + apply Qeq_bool_iff in Ha. rewrite Ha, andb_false_r. reflexivity.
  - intros a Ha Hnz. rewrite Ha.
    destruct (Qeq_bool (Qof a) 0) eqn:E.
    + apply Qeq_bool_iff in E. contradiction.
    + reflexivity.
  - intros l Hne Hrate.
    destruct (read_obj [] lists l) as [|x xs] eqn:E; [congruence|].
    cbn [negb FMIPCalculator.iterate bind]. rewrite E.
    unfold py_sum. cbn [enumerate sum_from].
    destruct Hrate as [->|(l' & ->)]; reflexivity.
Qed.

Lemma calculate_present_value_edges_witness :
  FMIPCalculator.calculate_present_value [[]; [AInt 5]] (FMIPCalculator.VList 0%nat)
    (FMIPCalculator.VAtom ANone) = Ok (AFloat 0)
  /\ FMIPCalculator.calculate_present_value [[]; [AInt 5]]
       (FMIPCalculator.VAtom ANone) (FMIPCalculator.VAtom ANone) = Ok (AFloat 0)
  /\ FMIPCalculator.calculate_present_value [[]; [AInt 5]]
       (FMIPCalculator.VAtom (AInt 7)) (FMIPCalculator.VAtom ANone) = Err TypeError
  /\ FMIPCalculator.calculate_present_value [[]; [AInt 5]]
       (FMIPCalculator.VList 1%nat) (FMIPCalculator.VAtom ANone) = Err TypeError.
Proof.
  destruct (calculate_present_value_edges [[]; [AInt 5]] (FMIPCalculator.VAtom ANone))
    as (H1 & H2 & H3 & H4).
  split; [apply H1; reflexivity|].
  split; [apply H2; left; reflexivity|].
  split; [apply H3; [reflexivity | discriminate]|].
  apply H4; [discriminate | left; reflexivity].
Defined.

(** ** Scaling and bounds of present values *)

Lemma scale_value xs k b :
  Forall (fun a => numeric a = true) xs -> numeric k = true ->
  exists ys,
    FMIPCalculator.scale xs k = Ok ys
    /\ Forall (fun a => numeric a = true) ys
    /\ (xs = [] <-> ys = [])
    /\ forall s,
         total (map (fun '(t, cf) => Qof cf / b ^ t) (enumerate s ys))
         == Qof k * total (map (fun '(t, cf) => Qof cf / b ^ t) (enumerate s xs)).
Proof.
  intros Hxs Hk. induction Hxs as [|x xs Hx Hxs IH].
  - exists []. repeat split; auto. intros s. simpl. lra.
  - destruct IH as (ys & Hys & Nys & _ & Vys).
    destruct (py_mul_value x k Hx Hk) as (y & Hy & Ny & Vy).
    exists (y :: ys). cbn [FMIPCalculator.scale]. rewrite Hy, Hys. cbn [bind].
    split; [reflexivity|]. split; [constructor; assumption|].
    split; [split; discriminate|].
    intros s. cbn [enumerate map total fold_right].
    change (fold_right Qplus 0) with total.
    rewrite (Vys (s + 1)%Z), Vy. unfold Qdiv. ring.
Qed.

(** X9. Scaling a series, as the FMIP sweep does for a parameter ending in
    _cashflows, scales its present value: for a series of numbers, a
    numeric multiplier k and a rate other than -1, the list comprehension
    builds a list whose present value is k times that of the original. *)
Theorem scaled_series_present_value (xs : list atom) (k r : atom) :
  Forall (fun a => numeric a = true) xs ->
  numeric k = true -> numeric r = true -> ~ Qof r == -1 ->
  exists ys v w,
    FMIPCalculator.scale xs k = Ok ys
    /\ FMIPCalculator.calculate_present_value [xs; ys]
         (FMIPCalculator.VList 0%nat) (FMIPCalculator.VAtom r) = Ok v
    /\ FMIPCalculator.calculate_present_value [xs; ys]
         (FMIPCalculator.VList 1%nat) (FMIPCalculator.VAtom r) = Ok w
    /\ Qof w == Qof k * Qof v.
Proof.
  intros Hxs Hk Hr Hne.
  destruct (scale_value xs k (1 + Qof r) Hxs Hk) as (ys & Hys & Nys & Hnil & Vys).
  exists ys. destruct xs as [|x xs].
  - assert (ys = []) by (apply Hnil; reflexivity). subst ys.
    exists (AFloat 0), (AFloat 0).
    split; [reflexivity|]. split; [reflexivity|]. split; [reflexivity|].
    cbn [Qof]. ring.
  - destruct ys as [|y ys]; [destruct Hnil as [_ H]; discriminate (H eq_refl)|].
    destruct (discounted_total 1 (x :: xs) r) as (v & Hv & Vv); auto; try lia.
    destruct (discounted_total 1 (y :: ys) r) as (w & Hw & Vw); auto; try lia.
    exists v, w. split; [exact Hys|].
    rewrite !calculate_present_value_nonempty by (cbn; discriminate).
    split; [exact Hv|]. split; [exact Hw|].
    rewrite Vw, Vv. apply Vys.
Qed.

Lemma scaled_series_present_value_witness :
  exists ys v w,
    FMIPCalculator.scale [AInt 110; AInt 121] (AFloat (3 # 2)) = Ok ys
    /\ FMIPCalculator.calculate_present_value [[AInt 110; AInt 121]; ys]
         (FMIPCalculator.VList 0%nat) (FMIPCalculator.VAtom (AFloat (1 # 10))) = Ok v
    /\ FMIPCalculator.calculate_present_value [[AInt 110; AInt 121]; ys]
         (FMIPCalculator.VList 1%nat) (FMIPCalculator.VAtom (AFloat (1 # 10))) = Ok w
    /\ Qof w == (3 # 2) * Qof v.
Proof.
  apply (scaled_series_present_value [AInt 110; AInt 121] (AFloat (3 # 2))
           (AFloat (1 # 10))).
  - repeat constructor.
  - reflexivity.
  - reflexivity.
  - vm_compute. discriminate.
Defined.

Lemma discounted_term_bounds q b t :
  0 <= q -> 1 <= b -> (0 <= t)%Z -> 0 <= q / b ^ t <= q.
Proof.
  intros Hq Hb Ht.
  assert (Hp : 1 <= b ^ t) by (apply Qpower_1_le; assumption).
  assert (Hpos : 0 < b ^ t) by lra.
  split.
  - apply Qle_shift_div_l; [exact Hpos | lra].
  - apply Qle_shift_div_r; [exact Hpos |].
    assert (0 <= q * (b ^ t - 1)) by (apply Qmult_le_0_compat; lra).
    lra.
Qed.

Lemma discounted_total_bounds b xs :
  1 <= b -> Forall (fun a => numeric a = true /\ 0 <= Qof a) xs ->
  forall s, (0 <= s)%Z ->
  0 <= total (map (fun '(t, cf) => Qof cf / b ^ t) (enumerate s xs))
    <= total (map Qof xs).
Proof.
  intros Hb Hxs. induction Hxs as [|x xs [_ Hx] _ IH]; intros s Hs.
  - simpl. lra.
  - cbn [enumerate map total fold_right].
    change (fold_right Qplus 0) with total.
    destruct (discounted_term_bounds (Qof x) b s Hx Hb Hs).
    destruct (IH (s + 1)%Z ltac:(lia)). lra.
Qed.

(** X10. Discounting never inflates: for a series of non-negative numbers
    and a non-negative discount rate, [calculate_present_value] returns a
    value between 0 and the plain sum of the series. *)
Theorem calculate_present_value_bounds (lists : list (list atom)) (l : loc) (r : atom) :
  let cash_flows := read_obj [] lists l in
  Forall (fun a => numeric a = true /\ 0 <= Qof a) cash_flows ->
  numeric r = true -> 0 <= Qof r ->
  exists v,
    FMIPCalculator.calculate_present_value lists
      (FMIPCalculator.VList l) (FMIPCalculator.VAtom r) = Ok v
    /\ 0 <= Qof v <= plain_sum cash_flows.
Proof.
  intros cash_flows Hxs Hr Hr0. subst cash_flows.
  destruct (read_obj [] lists l) as [|x xs] eqn:E.
  - exists (AFloat 0).
    unfold FMIPCalculator.calculate_present_value, FMIPCalculator.truthy.
    rewrite E. split; [reflexivity|]. cbn. lra.
  - rewrite calculate_present_value_nonempty by (rewrite E; discriminate).
    rewrite E.
    destruct (discounted_total 1 (x :: xs) r) as (v & Hv & Vv); auto; try lia.
    { eapply Forall_impl; [|exact Hxs]. intros a [Ha _]. exact Ha. }
    { lra. }
    exists v. split; [exact Hv|]. rewrite Vv, plain_sum_total.
    apply discounted_total_bounds; [lra | exact Hxs | lia].
Qed.

Lemma calculate_present_value_bounds_witness :
  exists v,
    FMIPCalculator.calculate_present_value [[AInt 110; AInt 121]]
      (FMIPCalculator.VList 0%nat) (FMIPCalculator.VAtom (AFloat (1 # 10))) = Ok v
    /\ 0 <= Qof v <= plain_sum [AInt 110; AInt 121].
Proof.
  apply (calculate_present_value_bounds [[AInt 110; AInt 121]] 0%nat
           (AFloat (1 # 10))).
  - repeat constructor; discriminate.
  - reflexivity.
  - discriminate.
Defined.

(** ** Rows and warnings of the sweeps *)

Section LROMASweepCount.

Import LROMACalculator.

Variable base_params : loc.

Let caught_line (line : string * atom * exn) : Prop :=
  catches (snd line) = true.

(** What a run of (part of) the sweep leaves: warnings for caught
    exceptions only, and either as many rows and warnings as overrides, or
    a [TypeError]. *)
Let accounted (n : nat) (results : list row) (w : world)
    (run : world * result (list row)) : Prop :=
  exists warns,
    stdout (fst run) = (stdout w ++ warns)%list
    /\ Forall caught_line warns
    /\ match snd run with
       | Ok results' =>
           (List.length results' + List.length warns = List.length results + n)%nat
       | Err e => e = TypeError
       end.




End LROMASweepCount.


Section FMIPSweepCount.

Import FMIPCalculator.

Variable fmt : atom -> string.
Variable base_params : loc.
Variable base_scenario : string.

Lemma sweep_point_stdout param_name v st :
  stdout (fst (sweep_point fmt base_params base_scenario param_name v st))
  = stdout st.
Proof.
  rewrite sweep_point_run.
  destruct (scaled_series _ _ _ _) as [[ys|]|e]; reflexivity.
Qed.

(** What a run of (part of) the sweep leaves: it returns, with as many
    rows and warnings as overrides. *)
Let accounted (n : nat) (results : list row) (st : store)
    (run : store * result (list row)) : Prop :=
  exists results' warns,
    snd run = Ok results'
    /\ stdout (fst run) = (stdout st ++ warns)%list
    /\ (List.length results' + List.length warns = List.length results + n)%nat.

Lemma fmip_step_accounted param_name results v st :
  accounted 1 results st
    (sweep_step fmt base_params base_scenario param_name results v st).
Proof.
  unfold accounted, sweep_step, try_except, mbind, print, ret.
  assert (Hout := sweep_point_stdout param_name v st).
  destruct (sweep_point fmt base_params base_scenario param_name v st)
    as [st1 [r|e]]; cbn [fst snd stdout] in *.
  - exists (results ++ [r])%list, []. rewrite app_nil_r, length_app.
    split; [reflexivity|]. split; [exact Hout|]. simpl. lia.
  - exists results, [(param_name, v, e)]. rewrite Hout.
    split; [reflexivity|]. split; [reflexivity|]. simpl. lia.
Qed.

Lemma fmip_inner_accounted param_name values :
  forall results st,
  accounted (List.length values) results st
    (for_each values (sweep_step fmt base_params base_scenario param_name)
       results st).
Proof.
  induction values as [|v values IH]; intros results st.
  - exists results, []. cbn. rewrite app_nil_r.
    split; [reflexivity|]. split; [reflexivity|]. lia.
  - cbn [for_each]. unfold mbind at 1.
    destruct (fmip_step_accounted param_name results v st)
      as (acc & w1 & Hr & Hout & Hn).
    destruct (sweep_step fmt base_params base_scenario param_name results v st)
      as [st1 r]; cbn [fst snd] in *. subst r.
    destruct (IH acc st1) as (res & w2 & Hr2 & Hout2 & Hn2).
    exists res, (w1 ++ w2)%list. rewrite Hout2, Hout, app_assoc, length_app.
    split; [exact Hr2|]. split; [reflexivity|]. cbn [List.length]. lia.
Qed.

Lemma fmip_sweep_accounted parameter_variations :
  forall results st,
  accounted (List.length (flat_map snd parameter_variations)) results st
    (for_each parameter_variations
       (fun results '(param_name, values) =>
          for_each values (sweep_step fmt base_params base_scenario param_name)
            results)
       results st).
Proof.
  induction parameter_variations as [|[p values] rest IH]; intros results st.
  - exists results, []. cbn. rewrite app_nil_r.
    split; [reflexivity|]. split; [reflexivity|]. lia.
  - cbn [for_each flat_map snd]. unfold mbind at 1.
    destruct (fmip_inner_accounted p values results st)
      as (acc & w1 & Hr & Hout & Hn).
    destruct (for_each values _ results st) as [st1 r]; cbn [fst snd] in *.
    subst r.
    destruct (IH acc st1) as (res & w2 & Hr2 & Hout2 & Hn2).
    exists res, (w1 ++ w2)%list. rewrite Hout2, Hout, app_assoc, !length_app.
    split; [exact Hr2|]. split; [reflexivity|]. lia.
Qed.

End FMIPSweepCount.

(** X12. [FMIPCalculator.sensitivity_analysis] raises only when the base
    scenario is not a key of the parameter mapping: then it raises
    [KeyError] for that name before the first sweep point, leaving the
    state as it was.  Otherwise it returns, whatever the scenario and the
    overrides hold, and every override is accounted for: the number of
    rows plus the number of warnings printed equals the number of override
    values. *)
Theorem fmip_sweep_accounts_for_overrides
    (fmt : atom -> string) (parameters : dict loc) (base_scenario : string)
    (parameter_variations : dict (list atom)) (st : FMIPCalculator.store) :
  let run := FMIPCalculator.sensitivity_analysis fmt parameters base_scenario
               parameter_variations st in
  if contains base_scenario parameters then
    exists rows warns,
      snd run = Ok rows
      /\ FMIPCalculator.stdout (fst run) = (FMIPCalculator.stdout st ++ warns)%list
      /\ (List.length rows + List.length warns
          = List.length (flat_map snd parameter_variations))%nat
  else run = (st, Err (KeyError base_scenario)).
Proof.
  intros run. subst run.
  unfold FMIPCalculator.sensitivity_analysis, mbind at 1, lift, contains, getitem.
  destruct (lookup base_scenario parameters) as [base_params|].
  - destruct (fmip_sweep_accounted fmt base_params base_scenario
                parameter_variations [] st) as (rows & warns & H1 & H2 & H3).
    exists rows, warns. auto.
  - reflexivity.
Qed.

(** ** [scenario_comparison] *)

Lemma scenario_comparison_loop st parameters scenarios :
  forall results out,
  let run :=
    for_each scenarios
      (fun results scenario =>
         try_except
           (fmip_result <~ lift (FMIPCalculator.calculate_fmip st parameters scenario) ;;
            ret (results ++ [comparison_row_of scenario fmip_result])%list)
           FMIPCalculator.comparison_catches
           (fun e => fun out => ((out ++ [(scenario, e)])%list, Ok results)))
      results out in
  match first_uncaught st parameters scenarios with
  | Some e => snd run = Err e
  | None =>
      run = ((out ++ comparison_warnings st parameters scenarios)%list,
             Ok (results ++ comparison_rows st parameters scenarios)%list)
  end.
Proof.
  set (body := fun (results : list FMIPCalculator.comparison_row) scenario =>
         try_except
           (fmip_result <~ lift (FMIPCalculator.calculate_fmip st parameters scenario) ;;
            ret (results ++ [comparison_row_of scenario fmip_result])%list)
           FMIPCalculator.comparison_catches
           (fun e => fun out : list (string * exn) =>
              ((out ++ [(scenario, e)])%list, Ok results))).
  induction scenarios as [|name rest IH]; intros results out; cbn zeta.
  - cbn. rewrite !app_nil_r. reflexivity.
  - cbn [for_each first_uncaught].
    unfold comparison_rows, comparison_warnings. cbn [flat_map].
    fold (comparison_rows st parameters rest).
    fold (comparison_warnings st parameters rest).
    assert (Hstep : body results name out
                    = match FMIPCalculator.calculate_fmip st parameters name with
                      | Ok r => (out, Ok (results ++ [comparison_row_of name r])%list)
                      | Err e =>
                          if FMIPCalculator.comparison_catches e
                          then ((out ++ [(name, e)])%list, Ok results)
                          else (out, Err e)
                      end).
    { unfold body, try_except, mbind, lift, ret.
      destruct (FMIPCalculator.calculate_fmip st parameters name) as [r|e];
        reflexivity. }
    unfold mbind. rewrite Hstep.
    destruct (FMIPCalculator.calculate_fmip st parameters name) as [r|e].
    + specialize (IH (results ++ [comparison_row_of name r])%list out).
      cbn zeta in IH.
      destruct (first_uncaught st parameters rest); [exact IH|].
      rewrite IH, <- app_assoc. reflexivity.
    + destruct (FMIPCalculator.comparison_catches e).
      * specialize (IH results (out ++ [(name, e)])%list). cbn zeta in IH.
        destruct (first_uncaught st parameters rest); [exact IH|].
        rewrite IH, <- app_assoc. reflexivity.
      * reflexivity.
Qed.

(** X13. [scenario_comparison] skips a scenario whose computation raises
    [KeyError] -- an unknown name or a missing field -- with a warning,
    and returns the rows of the others in the order asked; but the first
    scenario whose computation raises another exception ([TypeError], or
    [ZeroDivisionError] at a discount rate of -1) ends the comparison with
    that exception.  Without a list of names it compares base_case,
    pessimistic, optimistic and ssb_disruption. *)
Theorem scenario_comparison_rows
    (st : FMIPCalculator.store) (parameters : dict loc)
    (scenarios : option (list string)) (out : list (string * exn)) :
  let names :=
    match scenarios with
    | Some names => names
    | None => ["base_case"; "pessimistic"; "optimistic"; "ssb_disruption"]%string
    end in
  let run := FMIPCalculator.scenario_comparison st parameters scenarios out in
  match first_uncaught st parameters names with
  | Some e => snd run = Err e
  | None =>
      run = ((out ++ comparison_warnings st parameters names)%list,
             Ok (comparison_rows st parameters names))
  end.
Proof.
  intros names run. subst run.
  unfold FMIPCalculator.scenario_comparison.
  assert (H := scenario_comparison_loop st parameters names [] out).
  cbn zeta in H. unfold comparison_row_of in H.
  destruct scenarios as [l|]; exact H.
Qed.

(** ** The record returned by [calculate_fmip] *)

(** X14. Every record [calculate_fmip] returns is consistent: it carries
    the scenario name asked for; total_fiscal_return is pv_tax_revenues +
    pv_fiscal_avoidance; the ratio is infinite only when
    pv_public_investment is 0 and the total return is positive, is the
    float 0 when pv_public_investment is 0 and the total return is not
    positive, and otherwise satisfies fmip * pv_public_investment =
    total_fiscal_return. *)
Theorem calculate_fmip_record
    (st : FMIPCalculator.store) (parameters : dict loc) (scenario : string)
    (res : FMIPCalculator.fmip_result) :
  FMIPCalculator.calculate_fmip st parameters scenario = Ok res ->
  let investment := Qof (FMIPCalculator.pv_public_investment res) in
  let returns := Qof (FMIPCalculator.total_fiscal_return res) in
  FMIPCalculator.scenario res = scenario
  /\ returns == Qof (FMIPCalculator.pv_tax_revenues res)
                + Qof (FMIPCalculator.pv_fiscal_avoidance res)
  /\ match FMIPCalculator.fmip res with
     | FMIPCalculator.Infinity => investment == 0 /\ 0 < returns
     | FMIPCalculator.Finite q =>
         (investment == 0 /\ returns <= 0 /\ q = AFloat 0)
         \/ (~ investment == 0 /\ Qof q * investment == returns)
     end.
Proof.
  unfold FMIPCalculator.calculate_fmip.
  destruct (negb (contains scenario parameters)); [discriminate|].
  destruct (getitem parameters scenario) as [ref|]; cbn [bind]; [|discriminate].
  set (d := read_obj [] (FMIPCalculator.dicts st) ref).
  destruct (getitem d "public_investment_cashflows") as [cf1|[]];
    cbn [bind FMIPCalculator.reraise_key_error]; try discriminate.
  destruct (getitem d "social_discount_rate") as [r|[]];
    cbn [bind FMIPCalculator.reraise_key_error]; try discriminate.
  destruct (FMIPCalculator.calculate_present_value _ cf1 r) as [pv1|[]] eqn:P1;
    cbn [bind FMIPCalculator.reraise_key_error]; try discriminate.
  destruct (getitem d "tax_revenue_cashflows") as [cf2|[]];
    cbn [bind FMIPCalculator.reraise_key_error]; try discriminate.
  destruct (FMIPCalculator.calculate_present_value _ cf2 r) as [pv2|[]] eqn:P2;
    cbn [bind FMIPCalculator.reraise_key_error]; try discriminate.
  destruct (getitem d "fiscal_avoidance_cashflows") as [cf3|[]];
    cbn [bind FMIPCalculator.reraise_key_error]; try discriminate.
  destruct (FMIPCalculator.calculate_present_value _ cf3 r) as [pv3|[]] eqn:P3;
    cbn [bind FMIPCalculator.reraise_key_error]; try discriminate.
  assert (N1 := calculate_present_value_numeric _ _ _ _ P1).
  assert (N2 := calculate_present_value_numeric _ _ _ _ P2).
  assert (N3 := calculate_present_value_numeric _ _ _ _ P3).
  destruct (py_add_value pv2 pv3 N2 N3) as (tot & Htot & Nt & Vt).
  rewrite Htot. cbn [bind]. unfold py_eq0.
  destruct (Qeq_bool (Qof pv1) 0) eqn:E; cbn [bind].
  - apply Qeq_bool_iff in E. intros H; inversion H; subst res; clear H.
    cbn. split; [reflexivity|]. split; [exact Vt|].
    destruct (py_gt0 tot) eqn:G.
    + apply py_gt0_iff in G. split; assumption.
    + left. split; [exact E|]. split; [|reflexivity].
      destruct (Qlt_le_dec 0 (Qof tot)) as [Hpos|Hle]; [|exact Hle].
      apply py_gt0_iff in Hpos. congruence.
  - apply Qeq_bool_neq in E.
    rewrite (py_truediv_value tot pv1 Nt N1 E). cbn [bind].
    intros H; inversion H; subst res; clear H.
    cbn. split; [reflexivity|]. split; [exact Vt|].
    right. split; [exact E|]. field. exact E.
Qed.

Lemma calculate_fmip_record_witness :
  exists res,
    FMIPCalculator.calculate_fmip base_case [("base_case"%string, 0%nat)] "base_case"
    = Ok res
    /\ FMIPCalculator.scenario res = "base_case"%string
    /\ Qof (FMIPCalculator.total_fiscal_return res)
       == Qof (FMIPCalculator.pv_tax_revenues res)
          + Qof (FMIPCalculator.pv_fiscal_avoidance res).
Proof.
  destruct (FMIPCalculator.calculate_fmip base_case [("base_case"%string, 0%nat)]
              "base_case") as [res|e] eqn:E; [|vm_compute in E; discriminate].
  exists res. split; [reflexivity|].
  destruct (calculate_fmip_record base_case [("base_case"%string, 0%nat)]
              "base_case"%string res E) as (H1 & H2 & _).
  split; assumption.
Defined.

(** ** A sweep point that scales a series *)

Lemma present_value_of_list L l r xs :
  read_obj [] L l = xs ->
  Forall (fun a => numeric a = true) xs -> numeric r = true -> ~ Qof r == -1 ->
  exists v,
    FMIPCalculator.calculate_present_value L
      (FMIPCalculator.VList l) (FMIPCalculator.VAtom r) = Ok v
    /\ numeric v = true
    /\ Qof v == total (map (fun '(t, cf) => Qof cf / (1 + Qof r) ^ t)
                         (enumerate 1 xs)).
Proof.
  intros Hl Hxs Hr Hne. destruct xs as [|x xs].
  - exists (AFloat 0).
    unfold FMIPCalculator.calculate_present_value, FMIPCalculator.truthy.
    rewrite Hl. split; [reflexivity|]. split; reflexivity.
  - rewrite calculate_present_value_nonempty by (rewrite Hl; discriminate).
    rewrite Hl.
    destruct (py_sum_value (fun '(t, cf) => discounted cf r t)
                (fun '(t, cf) => Qof cf / (1 + Qof r) ^ t) (enumerate 1 (x :: xs)))
      as (v & Hv & Nv & Vv).
    { intros [t cf] Hin. apply In_enumerate in Hin. destruct Hin as [Ht Hin].
      rewrite Forall_forall in Hxs. apply discounted_value; auto. lia. }
    exists v. auto.
Qed.

Lemma fmip_of_present_values st parameters scenario ref cf1 cf2 cf3 r pv1 pv2 pv3 :
  let d := read_obj [] (FMIPCalculator.dicts st) ref in
  let L := FMIPCalculator.lists st in
  getitem parameters scenario = Ok ref ->
  getitem d "public_investment_cashflows" = Ok cf1 ->
  getitem d "tax_revenue_cashflows" = Ok cf2 ->
  getitem d "fiscal_avoidance_cashflows" = Ok cf3 ->
  getitem d "social_discount_rate" = Ok r ->
  FMIPCalculator.calculate_present_value L cf1 r = Ok pv1 ->
  FMIPCalculator.calculate_present_value L cf2 r = Ok pv2 ->
  FMIPCalculator.calculate_present_value L cf3 r = Ok pv3 ->
  ~ Qof pv1 == 0 ->
  exists res q,
    FMIPCalculator.calculate_fmip st parameters scenario = Ok res
    /\ FMIPCalculator.fmip res = FMIPCalculator.Finite q
    /\ Qof q == (Qof pv2 + Qof pv3) / Qof pv1.
Proof.
  intros d L Href H1 H2 H3 Hr P1 P2 P3 Hnz. subst d L.
  unfold FMIPCalculator.calculate_fmip.
  rewrite (getitem_contains _ _ _ Href), Href. cbn [negb bind].
  rewrite H1, Hr. cbn [bind]. rewrite P1. cbn [bind].
  rewrite H2. cbn [bind]. rewrite P2. cbn [bind].
  rewrite H3. cbn [bind]. rewrite P3. cbn [bind FMIPCalculator.reraise_key_error].
  assert (N1 := calculate_present_value_numeric _ _ _ _ P1).
  assert (N2 := calculate_present_value_numeric _ _ _ _ P2).
  assert (N3 := calculate_present_value_numeric _ _ _ _ P3).
  destruct (py_add_value pv2 pv3 N2 N3) as (tot & Htot & Nt & Vt).
  rewrite Htot. cbn [bind]. unfold py_eq0.
  destruct (Qeq_bool (Qof pv1) 0) eqn:E.
  - apply Qeq_bool_iff in E. contradiction.
  - rewrite (py_truediv_value tot pv1 Nt N1 Hnz). cbn [bind].
    eexists. eexists. split; [reflexivity|]. split; [reflexivity|].
    cbn [Qof]. rewrite Vt. reflexivity.
Qed.

(** X15. A sweep point on tax_revenue_cashflows is a proportional
    perturbation: in a scenario whose series are list objects, with a
    numeric tax series, a numeric multiplier k, a rate other than -1 and a
    present value of investment other than 0, the point succeeds and its
    row holds fmip = (k * pv_tax + pv_avoidance) / pv_investment, where the
    three present values are those of the base scenario. *)
Theorem sweep_point_scales_tax_revenue
    (fmt : atom -> string) (st : FMIPCalculator.store) (base_params : loc)
    (base_scenario : string) (k : atom) (l1 l2 l3 : loc) (r pv1 pv2 pv3 : atom) :
  let d := read_obj [] (FMIPCalculator.dicts st) base_params in
  let L := FMIPCalculator.lists st in
  getitem d "public_investment_cashflows" = Ok (FMIPCalculator.VList l1) ->
  getitem d "tax_revenue_cashflows" = Ok (FMIPCalculator.VList l2) ->
  getitem d "fiscal_avoidance_cashflows" = Ok (FMIPCalculator.VList l3) ->
  getitem d "social_discount_rate" = Ok (FMIPCalculator.VAtom r) ->
  (l1 < List.length L)%nat -> (l3 < List.length L)%nat ->
  Forall (fun a => numeric a = true) (read_obj [] L l2) ->
  numeric k = true -> numeric r = true -> ~ Qof r == -1 ->
  FMIPCalculator.calculate_present_value L (FMIPCalculator.VList l1)
    (FMIPCalculator.VAtom r) = Ok pv1 ->
  FMIPCalculator.calculate_present_value L (FMIPCalculator.VList l2)
    (FMIPCalculator.VAtom r) = Ok pv2 ->
  FMIPCalculator.calculate_present_value L (FMIPCalculator.VList l3)
    (FMIPCalculator.VAtom r) = Ok pv3 ->
  ~ Qof pv1 == 0 ->
  exists row q,
    snd (FMIPCalculator.sweep_point fmt base_params base_scenario
           "tax_revenue_cashflows" k st) = Ok row
    /\ FMIPCalculator.row_value row = k
    /\ FMIPCalculator.row_fmip row = FMIPCalculator.Finite q
    /\ Qof q == (Qof k * Qof pv2 + Qof pv3) / Qof pv1.
Proof.
  intros d L H1 H2 H3 Hr V1 V3 Hxs Hk Hnr Hne P1 P2 P3 Hnz.
  destruct (scale_value (read_obj [] L l2) k (1 + Qof r) Hxs Hk)
    as (ys & Hys & Nys & _ & Vys).
  rewrite sweep_point_run. fold d L.
  assert (Hscaled : scaled_series L d "tax_revenue_cashflows" k = Ok (Some ys)).
  { unfold scaled_series.
    change (endswith "tax_revenue_cashflows" "_cashflows") with true.
    cbv iota. rewrite H2. cbn [bind FMIPCalculator.iterate]. fold L.
    rewrite Hys. reflexivity. }
  rewrite Hscaled. cbn zeta. cbn [snd].
  set (d' := setitem d "tax_revenue_cashflows" (FMIPCalculator.VList (List.length L))).
  set (st1 := {| FMIPCalculator.dicts := (FMIPCalculator.dicts st ++ [d'])%list;
                 FMIPCalculator.lists := (L ++ [ys])%list;
                 FMIPCalculator.stdout := FMIPCalculator.stdout st |}).
  set (key := FMIPCalculator.temp_key fmt "tax_revenue_cashflows" k).
  set (m := List.length (FMIPCalculator.dicts st)).
  destruct (present_value_of_list L l2 r _ eq_refl Hxs Hnr Hne)
    as (v2 & Hv2 & _ & Vv2).
  fold L in P2. rewrite P2 in Hv2. inversion Hv2; subst v2. clear Hv2.
  destruct (present_value_of_list (L ++ [ys])%list (List.length L) r ys
              (read_obj_app_last _ _ _) Nys Hnr Hne) as (w & Hw & _ & Vw).
  destruct (fmip_of_present_values st1 [(key, m)] key m
              (FMIPCalculator.VList l1) (FMIPCalculator.VList (List.length L))
              (FMIPCalculator.VList l3) (FMIPCalculator.VAtom r) pv1 w pv3)
    as (res & q & Hres & Hq & Vq); cbn [st1 FMIPCalculator.dicts FMIPCalculator.lists].
  - apply temp_lookup.
  - unfold m. rewrite read_obj_app_last. unfold d'.
    rewrite getitem_setitem_other by discriminate. exact H1.
  - unfold m. rewrite read_obj_app_last. unfold d'.
    apply getitem_setitem_same.
  - unfold m. rewrite read_obj_app_last. unfold d'.
    rewrite getitem_setitem_other by discriminate. exact H3.
  - unfold m. rewrite read_obj_app_last. unfold d'.
    rewrite getitem_setitem_other by discriminate. exact Hr.
  - rewrite <- P1. apply present_value_resolve; [|reflexivity].
    simpl. rewrite read_obj_app_l by exact V1. reflexivity.
  - exact Hw.
  - rewrite <- P3. apply present_value_resolve; [|reflexivity].
    simpl. rewrite read_obj_app_l by exact V3. reflexivity.
  - exact Hnz.
  - rewrite Hres. cbn [bind]. eexists. exists q.
    split; [reflexivity|]. cbn. split; [reflexivity|]. split; [exact Hq|].
    rewrite Vq, Vw, Vys, <- Vv2. reflexivity.
Qed.

Lemma sweep_point_scales_tax_revenue_witness :
  exists row q,
    snd (FMIPCalculator.sweep_point (fun _ => "x"%string) 0%nat "base_case"
           "tax_revenue_cashflows" (AInt 2) base_case) = Ok row
    /\ FMIPCalculator.row_fmip row = FMIPCalculator.Finite q
    /\ 0 < Qof q.
Proof.
  edestruct (sweep_point_scales_tax_revenue (fun _ => "x"%string) base_case
               0%nat "base_case"%string (AInt 2) 0%nat 1%nat 2%nat
               (AFloat (5 # 100)))
    as (row & q & Hrow & _ & Hq & Vq); try reflexivity.
  - cbn. lia.
  - cbn. lia.
  - repeat constructor.
  - vm_compute. discriminate.
  - vm_compute. discriminate.
  - exists row, q. split; [exact Hrow|]. split; [exact Hq|].
    rewrite Vq. reflexivity.
Defined.

(** ** Saving a figure *)

Lemma prefix_split old s :
  String.prefix old s = true ->
  s = (old ++ InvestorStateVisualizer.string_drop (String.length old) s)%string.
Proof.
  revert s. induction old as [|a old IH]; intros s H; [reflexivity|].
  destruct s as [|b s]; [discriminate|].
  simpl in H. destruct (ascii_dec a b) as [->|]; [|discriminate].
  simpl. f_equal. apply IH. exact H.
Qed.

Lemma prefix_app old b : String.prefix old (old ++ b)%string = true.
Proof.
  induction old as [|a old IH]; [destruct b; reflexivity|].
  simpl. destruct (ascii_dec a a) as [_|N]; [exact IH|contradiction].
Qed.

Lemma string_drop_app old b :
  InvestorStateVisualizer.string_drop (String.length old) (old ++ b)%string = b.
Proof.
  induction old as [|a old IH]; [reflexivity|exact IH].
Qed.

Lemma substring_in_unfold sub s :
  InvestorStateVisualizer.substring_in sub s
  = (String.prefix sub s
     || match s with
        | EmptyString => false
        | String _ s' => InvestorStateVisualizer.substring_in sub s'
        end)%bool.
Proof. destruct s; reflexivity. Qed.

(** [substring_in] decides the occurrence of a string in another. *)
Lemma substring_in_occurs sub s :
  InvestorStateVisualizer.substring_in sub s = true <-> occurs_in sub s.
Proof.
  split.
  - induction s as [|c s IH]; rewrite substring_in_unfold; intros H;
      apply orb_true_iff in H; destruct H as [H|H].
    + exists ""%string. eexists. apply prefix_split. exact H.
    + discriminate.
    + exists ""%string. eexists. apply prefix_split. exact H.
    + destruct (IH H) as (a & b & ->). exists (String c a), b. reflexivity.
  - intros (a & b & ->). induction a as [|c a IH]; rewrite substring_in_unfold.
    + simpl. rewrite prefix_app. reflexivity.
    + simpl. rewrite IH. apply orb_true_r.
Qed.

Lemma replace_from_same old fuel s :
  InvestorStateVisualizer.replace_from fuel old old s = s.
Proof.
  revert s. induction fuel as [|fuel IH]; intros s; [reflexivity|].
  simpl. destruct (String.prefix old s) eqn:Hp.
  - rewrite IH. symmetry. apply prefix_split. exact Hp.
  - destruct s; [reflexivity|]. rewrite IH. reflexivity.
Qed.

Lemma replace_from_absent old new fuel s :
  InvestorStateVisualizer.substring_in old s = false ->
  InvestorStateVisualizer.replace_from fuel old new s = s.
Proof.
  revert s. induction fuel as [|fuel IH]; intros s Hno; [reflexivity|].
  rewrite substring_in_unfold in Hno. apply orb_false_iff in Hno.
  destruct Hno as [Hp Hs]. simpl. rewrite Hp.
  destruct s as [|c s]; [reflexivity|]. rewrite (IH _ Hs). reflexivity.
Qed.

Lemma replace_from_empty d ext new fuel :
  InvestorStateVisualizer.replace_from fuel (String d ext) new "" = ""%string.
Proof. destruct fuel; reflexivity. Qed.

(** A path that ends in [old], with no other occurrence of the first
    character of [old], has its ending replaced. *)
Lemma py_replace_ending d ext new stem :
  has_char d stem = false ->
  InvestorStateVisualizer.py_replace (String d ext) new (stem ++ String d ext)
  = (stem ++ new)%string.
Proof.
  unfold InvestorStateVisualizer.py_replace.
  induction stem as [|c stem IH]; intros Hno.
  - change ("" ++ String d ext)%string with (String d ext).
    change (String.length (String d ext)) with (S (String.length ext)).
    cbn [InvestorStateVisualizer.replace_from].
    pose proof (prefix_app (String d ext) "") as Hp.
    rewrite string_app_nil_r in Hp. rewrite Hp.
    pose proof (string_drop_app (String d ext) "") as Hd.
    rewrite string_app_nil_r in Hd. rewrite Hd.
    rewrite replace_from_empty, string_app_nil_r. reflexivity.
  - unfold has_char in Hno. simpl in Hno. apply orb_false_iff in Hno.
    destruct Hno as [Hc Hs]. apply Ascii.eqb_neq in Hc.
    change ((String c stem ++ String d ext)%string)
      with (String c (stem ++ String d ext)).
    change (String.length (String c (stem ++ String d ext)))
      with (S (String.length (stem ++ String d ext))).
    cbn [InvestorStateVisualizer.replace_from String.prefix].
    destruct (ascii_dec d c) as [E|_]; [contradiction|].
    rewrite (IH Hs). reflexivity.
Qed.

(** X16.  A save path that ends in [.png], with no other dot in it, is
    saved under each known format asked for with that format as its
    extension, in the order asked; only the PNG call passes [dpi]; a
    format other than [png], [pdf] and [svg] saves nothing and raises
    nothing. *)
Theorem save_figure_extensions (stem : string) (dpi : Z) (formats : list string) :
  has_char "."%char stem = false ->
  InvestorStateVisualizer._save_figure (stem ++ ".png") dpi formats
  = flat_map
      (fun fmt =>
         if (String.eqb fmt "png" || String.eqb fmt "pdf" || String.eqb fmt "svg")%bool
         then [{| InvestorStateVisualizer.path := (stem ++ "." ++ fmt)%string;
                  InvestorStateVisualizer.dpi_arg :=
                    if String.eqb fmt "png" then Some dpi else None |}]
         else [])
      formats.
Proof.
  intros Hno. unfold InvestorStateVisualizer._save_figure.
  apply flat_map_ext. intros fmt.
  destruct (String.eqb fmt "png") eqn:Epng.
  - apply String.eqb_eq in Epng. subst fmt. cbn [orb].
    rewrite (py_replace_ending "."%char "png" ".png" stem Hno). reflexivity.
  - destruct (String.eqb fmt "pdf") eqn:Epdf.
    + apply String.eqb_eq in Epdf. subst fmt. cbn [orb].
      rewrite (py_replace_ending "."%char "png" ".pdf" stem Hno). reflexivity.
    + destruct (String.eqb fmt "svg") eqn:Esvg; cbn [orb]; [|reflexivity].
      apply String.eqb_eq in Esvg. subst fmt.
      rewrite (py_replace_ending "."%char "png" ".svg" stem Hno). reflexivity.
Qed.

Lemma save_figure_extensions_witness :
  InvestorStateVisualizer._save_figure "out/figure2.png" 300
    InvestorStateVisualizer.default_formats
  = [{| InvestorStateVisualizer.path := "out/figure2.png"%string;
        InvestorStateVisualizer.dpi_arg := Some 300%Z |};
     {| InvestorStateVisualizer.path := "out/figure2.pdf"%string;
        InvestorStateVisualizer.dpi_arg := None |}].
Proof.
  apply (save_figure_extensions "out/figure2" 300
           InvestorStateVisualizer.default_formats).
  reflexivity.
Defined.

(** X17.  The PNG call always saves to the save path as given.  When
    [.png] does not occur in the save path, no call changes the path: every
    format is saved to the save path itself, and with the default formats
    the PDF is saved to the very path the PNG was just saved to. *)
Theorem save_figure_without_png (save_path : string) (dpi : Z)
    (formats : list string) :
  InvestorStateVisualizer._save_figure save_path dpi ["png"%string]
  = [{| InvestorStateVisualizer.path := save_path;
        InvestorStateVisualizer.dpi_arg := Some dpi |}]
  /\ (InvestorStateVisualizer.substring_in ".png" save_path = false ->
      (forall call,
          In call (InvestorStateVisualizer._save_figure save_path dpi formats) ->
          InvestorStateVisualizer.path call = save_path)
      /\ InvestorStateVisualizer._save_figure save_path dpi
           InvestorStateVisualizer.default_formats
         = [{| InvestorStateVisualizer.path := save_path;
               InvestorStateVisualizer.dpi_arg := Some dpi |};
            {| InvestorStateVisualizer.path := save_path;
               InvestorStateVisualizer.dpi_arg := None |}]).
Proof.
  split.
  - unfold InvestorStateVisualizer._save_figure, InvestorStateVisualizer.py_replace.
    cbn [flat_map String.eqb Ascii.eqb Bool.eqb andb app].
    rewrite replace_from_same. reflexivity.
  - intros Hno. split.
    + intros call Hin. unfold InvestorStateVisualizer._save_figure in Hin.
      apply in_flat_map in Hin. destruct Hin as (fmt & _ & Hin).
      unfold InvestorStateVisualizer.py_replace in Hin.
      rewrite !(replace_from_absent _ _ _ _ Hno) in Hin.
      destruct (String.eqb fmt "png"); [destruct Hin as [<-|[]]; reflexivity|].
      destruct (String.eqb fmt "pdf"); [destruct Hin as [<-|[]]; reflexivity|].
      destruct (String.eqb fmt "svg"); [destruct Hin as [<-|[]]; reflexivity|].
      destruct Hin.
    + unfold InvestorStateVisualizer._save_figure, InvestorStateVisualizer.py_replace,
        InvestorStateVisualizer.default_formats.
      cbn [flat_map String.eqb Ascii.eqb Bool.eqb andb app].
      rewrite !(replace_from_absent _ _ _ _ Hno). reflexivity.
Qed.

Lemma save_figure_without_png_witness :
  InvestorStateVisualizer._save_figure "out/figure2" 300
    InvestorStateVisualizer.default_formats
  = [{| InvestorStateVisualizer.path := "out/figure2"%string;
        InvestorStateVisualizer.dpi_arg := Some 300%Z |};
     {| InvestorStateVisualizer.path := "out/figure2"%string;
        InvestorStateVisualizer.dpi_arg := None |}].
Proof.
  apply (proj2 (save_figure_without_png "out/figure2" 300 [])).
  reflexivity.
Defined.
